(** * go-reddit, [reddit/things.go]: decoding of Listing responses and
      reassembly of comment trees

    A shallow embedding of [reddit/things.go] together with the part of Go's
    [encoding/json] that the file relies on, and the properties of the
    decoders, of the reply container and of the tree assembler.

    Conventions of the embedding.
    - A JSON text that passes [encoding/json]'s scanner is a value of [json];
      a method [UnmarshalJSON(b []byte)] receives such a value.  The package
      hands a method exactly the bytes of one value, so the byte comparison
      [string(data) == `""`] is the test [data = JString ""].
    - A method with a pointer receiver that mutates it and returns [error] is
      a function from the receiver to the new receiver and an [option error].
    - [encoding/json] reports many different errors; the code of this file
      only tests [err != nil] and hands the error on, so one value
      [DecodeError] stands for all of them.  A destination that was being
      filled when an error occurred is dropped by every caller in the file, so
      the package's decoders return either the filled destination or the error.
    - Slices are lists; a nil slice and an empty slice are both [[]].
      Pointers that may be nil are options.  The elements of a [[]*Comment]
      are never nil (the decoder appends [new(Comment)] only) and each one is
      reachable along one path: object graphs are trees, as decoding builds
      them. *)

From Stdlib Require Import String Ascii List ZArith Bool Lia DecimalString.
From Stdlib Require Import Permutation DecimalPos.
From coqutil Require Import Datatypes.RecordSetters.
Import ListNotations.
Import TriangleBracketNotations.

Local Open Scope string_scope.
Local Open Scope list_scope.

Set Implicit Arguments.
Set Warnings "-register-all".

(** ** JSON values *)

(** The number literal keeps its text: what it denotes depends on the
    destination ([strconv.ParseInt] for an [int], [ParseFloat] for a float). *)
Inductive json : Type :=
| JNull
| JBool (b : bool)
| JNumber (lit : string)
| JString (s : string)
| JArray (elems : list json)
| JObject (members : list (string * json)).

(** [json.RawMessage]: the bytes of one JSON value, or no bytes at all. *)
Definition RawMessage := option json.

(** Nesting depth of a value; the measure that bounds the recursion of the
    comment decoder. *)
Fixpoint depth (j : json) : nat :=
  match j with
  | JArray elems => S (fold_right (fun e d => Nat.max (depth e) d) 0 elems)
  | JObject members =>
      S (fold_right (fun m d => Nat.max (depth (snd m)) d) 0 members)
  | _ => 0
  end.

(** ** Names of object members

    [encoding/json] matches a member name with a field name exactly or, failing
    that, under Unicode simple case folding.  The field names of this file are
    lower-case ASCII and pairwise different, so a member names a field when
    its folded name is the field's.  Besides the ASCII capitals, the only
    characters that fold to an ASCII letter are U+212A (Kelvin sign, to k) and
    U+017F (long s, to s); strings are UTF-8. *)
Definition lower (a : ascii) : ascii :=
  let n := nat_of_ascii a in
  if (65 <=? n)%nat && (n <=? 90)%nat then ascii_of_nat (n + 32) else a.

Fixpoint foldName (s : string) : string :=
  match s with
  | EmptyString => EmptyString
  | String "226" (String "132" (String "170" r)) => String "k" (foldName r)
  | String "197" (String "191" r) => String "s" (foldName r)
  | String a r => String (lower a) (foldName r)
  end.

(** ** Integers on the wire *)

Definition digit (a : ascii) : option Z :=
  let n := Z.of_nat (nat_of_ascii a) in
  if (48 <=? n)%Z && (n <=? 57)%Z then Some (n - 48)%Z else None.

Fixpoint digits (acc : Z) (s : string) : option Z :=
  match s with
  | EmptyString => Some acc
  | String a r =>
      match digit a with
      | Some d => digits (10 * acc + d)%Z r
      | None => None
      end
  end.

(** [strconv.ParseInt(s, 10, 64)]: an optional sign, at least one digit, and
    the value within the range of [int64]. *)
Definition ParseInt (s : string) : option Z :=
  let magnitude r :=
    match r with
    | EmptyString => None
    | _ => digits 0 r
    end in
  let value :=
    match s with
    | String "-" r => option_map Z.opp (magnitude r)
    | String "+" r => magnitude r
    | _ => magnitude s
    end in
  match value with
  | Some z =>
      if (- 2 ^ 63 <=? z)%Z && (z <=? 2 ^ 63 - 1)%Z then Some z else None
  | None => None
  end.

(** [strconv.FormatInt(z, 10)], the text [encoding/json] writes for an [int]. *)
Definition FormatInt (z : Z) : string := NilZero.string_of_int (Z.to_int z).

(** ** Errors, panics and results *)

Inductive error : Type := DecodeError.

(** What a Go [(T, error)] pair carries when the error decides which half is
    used. *)
Inductive result (A : Type) : Type :=
| Ok (a : A)
| Err (e : error).
Arguments Ok {A} a.
Arguments Err {A} e.

Definition bind {A B : Type} (r : result A) (k : A -> result B) : result B :=
  match r with
  | Ok a => k a
  | Err e => Err e
  end.

Notation "x <- r ;; k" := (bind r (fun x => k))
  (at level 61, r at next level, right associativity).

Definition isOk {A : Type} (r : result A) : bool :=
  match r with
  | Ok _ => true
  | Err _ => false
  end.

(** Run-time panics of the Go code that the file can reach. *)
Inductive panic : Type :=
| IndexOutOfRange
| NilDereference.

(** A call either returns or panics. *)
Inductive outcome (A : Type) : Type :=
| Returned (a : A)
| Panicked (p : panic).
Arguments Returned {A} a.
Arguments Panicked {A} p.

(** ** [encoding/json], decoding

    [store T] is [decodeState.value] at a destination of type [T]: it takes
    the JSON value and the destination's current content. *)
Definition store (T : Type) : Type := json -> T -> result T.

(** A method [UnmarshalJSON] with its receiver threaded through. *)
Definition unmarshaler (T : Type) : Type := json -> T -> T * option error.

(** A destination whose pointer type implements [json.Unmarshaler] is given
    every value, [null] included ([indirect] finds the method before it looks
    at the value); an error of the method stops the whole decode. *)
Definition viaUnmarshaler {T : Type} (m : unmarshaler T) : store T :=
  fun j dst =>
    match m j dst with
    | (dst', None) => Ok dst'
    | (_, Some err) => Err err
    end.

(** [json.Unmarshal(data, v)]: the scanner refuses an empty input. *)
Definition json_Unmarshal {T : Type} (st : store T) (data : RawMessage) (v : T)
  : result T :=
  match data with
  | None => Err DecodeError
  | Some j => st j v
  end.

(** Destinations of the basic kinds.  [null] leaves a destination that is
    not a pointer, slice, map or interface as it is; a value of the wrong kind
    is an [UnmarshalTypeError], and so is a number that is no integer of 64
    bits where the destination is an [int] (taken to be 64 bits wide). *)
Definition stringStore : store string :=
  fun j dst =>
    match j with
    | JString s => Ok s
    | JNull => Ok dst
    | _ => Err DecodeError
    end.

Definition boolStore : store bool :=
  fun j dst =>
    match j with
    | JBool b => Ok b
    | JNull => Ok dst
    | _ => Err DecodeError
    end.

Definition intStore : store Z :=
  fun j dst =>
    match j with
    | JNumber lit =>
        match ParseInt lit with
        | Some z => Ok z
        | None => Err DecodeError
        end
    | JNull => Ok dst
    | _ => Err DecodeError
    end.

Definition rawStore : store RawMessage :=
  fun j _ => Ok (Some j).

(** A pointer destination: [null] sets it to nil, any other value is decoded
    into what it points to, a fresh zero value when it was nil. *)
Definition ptrStore {T : Type} (zero : T) (st : store T) : store (option T) :=
  fun j dst =>
    match j with
    | JNull => Ok None
    | _ =>
        v <- st j (match dst with Some v => v | None => zero end) ;;
        Ok (Some v)
    end.

(** A slice destination: [null] sets it to nil; for an array, "Unmarshal
    resets the slice length to zero and then appends each element to the
    slice" (the package's documentation): one element per array element, each
    decoded into a zero value. *)
Fixpoint elemsStore {T : Type} (zero : T) (st : store T) (elems : list json)
  : result (list T) :=
  match elems with
  | [] => Ok []
  | e :: rest =>
      v <- st e zero ;;
      vs <- elemsStore zero st rest ;;
      Ok (v :: vs)
  end.

Definition sliceStore {T : Type} (zero : T) (st : store T) : store (list T) :=
  fun j _ =>
    match j with
    | JArray elems => elemsStore zero st elems
    | JNull => Ok []
    | _ => Err DecodeError
    end.

(** A struct destination.  Each member of the object, in order, is decoded
    into the field it names; a member that names no field is skipped; [null]
    leaves the struct as it is. *)
Definition fields (T : Type) : Type := list (string * store T).

Fixpoint fieldNamed {T : Type} (tbl : fields T) (name : string)
  : option (store T) :=
  match tbl with
  | [] => None
  | (n, st) :: rest =>
      if String.eqb n (foldName name) then Some st else fieldNamed rest name
  end.

Fixpoint membersStore {T : Type} (tbl : fields T)
  (members : list (string * json)) (dst : T) : result T :=
  match members with
  | [] => Ok dst
  | (name, v) :: rest =>
      match fieldNamed tbl name with
      | Some st => dst' <- st v dst ;; membersStore tbl rest dst'
      | None => membersStore tbl rest dst
      end
  end.

Definition structStore {T : Type} (tbl : fields T) : store T :=
  fun j dst =>
    match j with
    | JObject members => membersStore tbl members dst
    | JNull => Ok dst
    | _ => Err DecodeError
    end.

(** The field of a struct as a destination: the value is decoded into the
    field's current content and the field is set to the outcome. *)
Definition field {T F : Type} (get : T -> F) {set : Setter get} (st : store F)
  : store T :=
  fun j dst => v <- st j (get dst) ;; Ok (set (constant v) dst).
Arguments field {T F} get {set} st.

(** ** What the file takes from the rest of the package and from Go

    [Timestamp], [User] and [ModAction] are declared in other files of the
    package; [float32] is Go's.  The embedding takes their types, their zero
    values and the way [encoding/json] decodes a value into them (and encodes
    a [Timestamp]) as given. *)
Class Collaborators : Type := {
  Timestamp : Type;
  Timestamp_zero : Timestamp;
  Timestamp_store : store Timestamp;
  Timestamp_Marshal : Timestamp -> result json;
  float32 : Type;
  float32_zero : float32;
  float32_store : store float32;
  User : Type;
  User_zero : User;
  User_store : store User;
  ModAction : Type;
  ModAction_zero : ModAction;
  ModAction_store : store ModAction
}.

(** ** The kinds of things *)

Definition kindComment := "t1".
Definition kindAccount := "t2".
Definition kindPost := "t3".
Definition kindMessage := "t4".
Definition kindSubreddit := "t5".
Definition kindAward := "t6".
Definition kindListing := "Listing".
Definition kindKarmaList := "KarmaList".
Definition kindTrophyList := "TrophyList".
Definition kindUserList := "UserList".
Definition kindMore := "more".
Definition kindModAction := "modaction".

(** [thing]: an entity on Reddit, its kind and its undecoded data. *)
Record thing : Type := {
  thing_Kind : string;
  thing_Data : RawMessage
}.

(** [More]: what is needed to retrieve the comments left out of a tree. *)
Record More : Type := {
  More_ID : string;
  More_FullID : string;
  More_ParentID : string;
  More_Count : Z;
  More_Depth : Z;
  More_Children : list string
}.

(** [Replies], over the type of comments it holds; [Comment] below closes the
    knot. *)
Record Replies_of (C : Type) : Type := {
  Replies_Comments : list C;
  Replies_More : option More
}.
Arguments Replies_Comments {C} r.
Arguments Replies_More {C} r.

Section Reddit.
Context {collaborators : Collaborators}.

Inductive Comment : Type := {
  Comment_ID : string;
  Comment_FullID : string;
  Comment_Created : option Timestamp;
  Comment_Edited : option Timestamp;
  Comment_ParentID : string;
  Comment_Permalink : string;
  Comment_Body : string;
  Comment_Author : string;
  Comment_AuthorID : string;
  Comment_AuthorFlairText : string;
  Comment_AuthorFlairID : string;
  Comment_SubredditName : string;
  Comment_SubredditNamePrefixed : string;
  Comment_SubredditID : string;
  Comment_Likes : option bool;
  Comment_Score : Z;
  Comment_Controversiality : Z;
  Comment_PostID : string;
  Comment_PostTitle : string;
  Comment_PostPermalink : string;
  Comment_PostAuthor : string;
  Comment_PostNumComments : option Z;
  Comment_IsSubmitter : bool;
  Comment_ScoreHidden : bool;
  Comment_Saved : bool;
  Comment_Stickied : bool;
  Comment_Locked : bool;
  Comment_CanGild : bool;
  Comment_NSFW : bool;
  Comment_Replies : Replies_of Comment
}.

Definition Replies : Type := Replies_of Comment.

Record Post : Type := {
  Post_ID : string;
  Post_FullID : string;
  Post_Created : option Timestamp;
  Post_Edited : option Timestamp;
  Post_Permalink : string;
  Post_URL : string;
  Post_Title : string;
  Post_Body : string;
  Post_Likes : option bool;
  Post_Score : Z;
  Post_UpvoteRatio : float32;
  Post_NumberOfComments : Z;
  Post_SubredditName : string;
  Post_SubredditNamePrefixed : string;
  Post_SubredditID : string;
  Post_Author : string;
  Post_AuthorID : string;
  Post_Spoiler : bool;
  Post_Locked : bool;
  Post_NSFW : bool;
  Post_IsSelfPost : bool;
  Post_Saved : bool;
  Post_Stickied : bool
}.

Record Subreddit : Type := {
  Subreddit_ID : string;
  Subreddit_FullID : string;
  Subreddit_Created : option Timestamp;
  Subreddit_URL : string;
  Subreddit_Name : string;
  Subreddit_NamePrefixed : string;
  Subreddit_Title : string;
  Subreddit_Description : string;
  Subreddit_Type : string;
  Subreddit_SuggestedCommentSort : string;
  Subreddit_Subscribers : Z;
  Subreddit_ActiveUserCount : option Z;
  Subreddit_NSFW : bool;
  Subreddit_UserIsMod : bool;
  Subreddit_Subscribed : bool;
  Subreddit_Favorite : bool
}.

(** [things]: the decoded children of a listing, one bucket per kind. *)
Record things : Type := {
  things_Comments : list Comment;
  things_Mores : list More;
  things_Users : list User;
  things_Posts : list Post;
  things_Subreddits : list Subreddit;
  things_ModActions : list ModAction
}.

(** [listing]: things and the anchors for the next requests. *)
Record listing : Type := {
  listing_things : things;
  listing_after : string;
  listing_before : string
}.

(** [PostAndComments]: a post and its comments. *)
Record PostAndComments : Type := {
  PostAndComments_Post : option Post;
  PostAndComments_Comments : list Comment;
  PostAndComments_More : option More
}.

(** *** Zero values ([new(T)], [var v T]) *)

Definition new_More : More :=
  {| More_ID := ""; More_FullID := ""; More_ParentID := "";
     More_Count := 0; More_Depth := 0; More_Children := [] |}.

Definition new_Replies : Replies :=
  {| Replies_Comments := []; Replies_More := None |}.

Definition new_Comment : Comment :=
  {| Comment_ID := ""; Comment_FullID := "";
     Comment_Created := None; Comment_Edited := None;
     Comment_ParentID := ""; Comment_Permalink := "";
     Comment_Body := ""; Comment_Author := ""; Comment_AuthorID := "";
     Comment_AuthorFlairText := ""; Comment_AuthorFlairID := "";
     Comment_SubredditName := ""; Comment_SubredditNamePrefixed := "";
     Comment_SubredditID := "";
     Comment_Likes := None;
     Comment_Score := 0; Comment_Controversiality := 0;
     Comment_PostID := ""; Comment_PostTitle := "";
     Comment_PostPermalink := ""; Comment_PostAuthor := "";
     Comment_PostNumComments := None;
     Comment_IsSubmitter := false; Comment_ScoreHidden := false;
     Comment_Saved := false; Comment_Stickied := false;
     Comment_Locked := false; Comment_CanGild := false;
     Comment_NSFW := false;
     Comment_Replies := new_Replies |}.

Definition new_Post : Post :=
  {| Post_ID := ""; Post_FullID := "";
     Post_Created := None; Post_Edited := None;
     Post_Permalink := ""; Post_URL := "";
     Post_Title := ""; Post_Body := "";
     Post_Likes := None;
     Post_Score := 0; Post_UpvoteRatio := float32_zero;
     Post_NumberOfComments := 0;
     Post_SubredditName := ""; Post_SubredditNamePrefixed := "";
     Post_SubredditID := "";
     Post_Author := ""; Post_AuthorID := "";
     Post_Spoiler := false; Post_Locked := false; Post_NSFW := false;
     Post_IsSelfPost := false; Post_Saved := false;
     Post_Stickied := false |}.

Definition new_Subreddit : Subreddit :=
  {| Subreddit_ID := ""; Subreddit_FullID := "";
     Subreddit_Created := None;
     Subreddit_URL := ""; Subreddit_Name := "";
     Subreddit_NamePrefixed := ""; Subreddit_Title := "";
     Subreddit_Description := ""; Subreddit_Type := "";
     Subreddit_SuggestedCommentSort := "";
     Subreddit_Subscribers := 0; Subreddit_ActiveUserCount := None;
     Subreddit_NSFW := false; Subreddit_UserIsMod := false;
     Subreddit_Subscribed := false; Subreddit_Favorite := false |}.

Definition new_thing : thing := {| thing_Kind := ""; thing_Data := None |}.

Definition new_things : things :=
  {| things_Comments := []; things_Mores := []; things_Users := [];
     things_Posts := []; things_Subreddits := [];
     things_ModActions := [] |}.

Definition new_listing : listing :=
  {| listing_things := new_things; listing_after := "";
     listing_before := "" |}.

Definition new_PostAndComments : PostAndComments :=
  {| PostAndComments_Post := None; PostAndComments_Comments := [];
     PostAndComments_More := None |}.

(** *** How [encoding/json] decodes into the structs of the file

    The tables follow the [json] tags of the struct declarations. *)

Definition thing_fields : fields thing :=
  [ ("kind", field thing_Kind stringStore);
    ("data", field thing_Data rawStore) ].

Definition thing_store : store thing := structStore thing_fields.

Definition More_fields : fields More :=
  [ ("id", field More_ID stringStore);
    ("name", field More_FullID stringStore);
    ("parent_id", field More_ParentID stringStore);
    ("count", field More_Count intStore);
    ("depth", field More_Depth intStore);
    ("children", field More_Children (sliceStore "" stringStore)) ].

Definition More_store : store More := structStore More_fields.

Definition Post_fields : fields Post :=
  [ ("id", field Post_ID stringStore);
    ("name", field Post_FullID stringStore);
    ("created_utc", field Post_Created (ptrStore Timestamp_zero Timestamp_store));
    ("edited", field Post_Edited (ptrStore Timestamp_zero Timestamp_store));
    ("permalink", field Post_Permalink stringStore);
    ("url", field Post_URL stringStore);
    ("title", field Post_Title stringStore);
    ("selftext", field Post_Body stringStore);
    ("likes", field Post_Likes (ptrStore false boolStore));
    ("score", field Post_Score intStore);
    ("upvote_ratio", field Post_UpvoteRatio float32_store);
    ("num_comments", field Post_NumberOfComments intStore);
    ("subreddit", field Post_SubredditName stringStore);
    ("subreddit_name_prefixed", field Post_SubredditNamePrefixed stringStore);
    ("subreddit_id", field Post_SubredditID stringStore);
    ("author", field Post_Author stringStore);
    ("author_fullname", field Post_AuthorID stringStore);
    ("spoiler", field Post_Spoiler boolStore);
    ("locked", field Post_Locked boolStore);
    ("over_18", field Post_NSFW boolStore);
    ("is_self", field Post_IsSelfPost boolStore);
    ("saved", field Post_Saved boolStore);
    ("stickied", field Post_Stickied boolStore) ].

Definition Post_store : store Post := structStore Post_fields.

Definition Subreddit_fields : fields Subreddit :=
  [ ("id", field Subreddit_ID stringStore);
    ("name", field Subreddit_FullID stringStore);
    ("created_utc",
      field Subreddit_Created (ptrStore Timestamp_zero Timestamp_store));
    ("url", field Subreddit_URL stringStore);
    ("display_name", field Subreddit_Name stringStore);
    ("display_name_prefixed", field Subreddit_NamePrefixed stringStore);
    ("title", field Subreddit_Title stringStore);
    ("public_description", field Subreddit_Description stringStore);
    ("subreddit_type", field Subreddit_Type stringStore);
    ("suggested_comment_sort",
      field Subreddit_SuggestedCommentSort stringStore);
    ("subscribers", field Subreddit_Subscribers intStore);
    ("active_user_count",
      field Subreddit_ActiveUserCount (ptrStore 0%Z intStore));
    ("over18", field Subreddit_NSFW boolStore);
    ("user_is_moderator", field Subreddit_UserIsMod boolStore);
    ("user_is_subscriber", field Subreddit_Subscribed boolStore);
    ("user_has_favorited", field Subreddit_Favorite boolStore) ].

Definition Subreddit_store : store Subreddit := structStore Subreddit_fields.

(** *** The decoders of [things.go]

    A comment holds replies, replies are decoded from a listing, and a
    listing holds comments.  The methods are first written over
    [decodeComment], the way [encoding/json] decodes a value into a
    [Comment]; [Comment_store] below closes the recursion. *)
Section OpenRecursion.
Variable decodeComment : store Comment.

(** [things.init]: initializes or clears the listing. *)
Definition things_init (t : things) : things :=
  let t := t <| things_Comments := [] |> in
  let t := t <| things_Mores := [] |> in
  let t := t <| things_Users := [] |> in
  let t := t <| things_Posts := [] |> in
  let t := t <| things_Subreddits := [] |> in
  let t := t <| things_ModActions := [] |> in
  t.

(** The body of the loop of [things.UnmarshalJSON]: the [switch] on the
    kind, each case with its [v := new(T)] and its
    [if err := json.Unmarshal(thing.Data, v); err == nil]. *)
Definition things_case (t : things) (th : thing) : things :=
  let kind := thing_Kind th in
  if String.eqb kind kindComment then
    match json_Unmarshal decodeComment (thing_Data th) new_Comment with
    | Ok v => t <| things_Comments ::= fun s => s ++ [v] |>
    | Err _ => t
    end
  else if String.eqb kind kindMore then
    match json_Unmarshal More_store (thing_Data th) new_More with
    | Ok v => t <| things_Mores ::= fun s => s ++ [v] |>
    | Err _ => t
    end
  else if String.eqb kind kindAccount then
    match json_Unmarshal User_store (thing_Data th) User_zero with
    | Ok v => t <| things_Users ::= fun s => s ++ [v] |>
    | Err _ => t
    end
  else if String.eqb kind kindPost then
    match json_Unmarshal Post_store (thing_Data th) new_Post with
    | Ok v => t <| things_Posts ::= fun s => s ++ [v] |>
    | Err _ => t
    end
  else if String.eqb kind kindSubreddit then
    match json_Unmarshal Subreddit_store (thing_Data th) new_Subreddit with
    | Ok v => t <| things_Subreddits ::= fun s => s ++ [v] |>
    | Err _ => t
    end
  else if String.eqb kind kindModAction then
    match json_Unmarshal ModAction_store (thing_Data th) ModAction_zero with
    | Ok v => t <| things_ModActions ::= fun s => s ++ [v] |>
    | Err _ => t
    end
  else t.

(** [var things []thing; json.Unmarshal(b, &things)]. *)
Definition thingSlice_store : store (list thing) :=
  sliceStore new_thing thing_store.

(** [things.UnmarshalJSON]. *)
Definition things_UnmarshalJSON_with : unmarshaler things :=
  fun b t =>
    let t := things_init t in
    match json_Unmarshal thingSlice_store (Some b) [] with
    | Err err => (t, Some err)
    | Ok ths => (fold_left things_case ths t, None)
    end.

(** The anonymous struct [root] of [listing.UnmarshalJSON] and its field
    [Data]. *)
Record listingData : Type := {
  listingData_Things : things;
  listingData_After : string;
  listingData_Before : string
}.

Record listingRoot : Type := { listingRoot_Data : listingData }.

Definition new_listingRoot : listingRoot :=
  {| listingRoot_Data :=
       {| listingData_Things := new_things; listingData_After := "";
          listingData_Before := "" |} |}.

Definition listingData_fields : fields listingData :=
  [ ("children",
      field listingData_Things (viaUnmarshaler things_UnmarshalJSON_with));
    ("after", field listingData_After stringStore);
    ("before", field listingData_Before stringStore) ].

Definition listingRoot_fields : fields listingRoot :=
  [ ("data", field listingRoot_Data (structStore listingData_fields)) ].

Definition listingRoot_store : store listingRoot :=
  structStore listingRoot_fields.

(** [listing.UnmarshalJSON]. *)
Definition listing_UnmarshalJSON_with : unmarshaler listing :=
  fun b l =>
    match json_Unmarshal listingRoot_store (Some b) new_listingRoot with
    | Err err => (l, Some err)
    | Ok root =>
        let l := l <| listing_things :=
                       listingData_Things (listingRoot_Data root) |> in
        let l := l <| listing_after :=
                       listingData_After (listingRoot_Data root) |> in
        let l := l <| listing_before :=
                       listingData_Before (listingRoot_Data root) |> in
        (l, None)
    end.

(** [*listing] implements [json.Unmarshaler]. *)
Definition listing_store_with : store listing :=
  viaUnmarshaler listing_UnmarshalJSON_with.

(** [Replies.UnmarshalJSON].  In the first branch [r = nil] assigns to
    the method's own copy of the pointer: the receiver is not touched. *)
Definition Replies_UnmarshalJSON_with : unmarshaler Replies :=
  fun data r =>
    match data with
    | JString "" => (r, None)
    | _ =>
        match json_Unmarshal listing_store_with (Some data) new_listing with
        | Err err => (r, Some err)
        | Ok root =>
            let r := r <| Replies_Comments :=
                           things_Comments (listing_things root) |> in
            let r :=
              match things_Mores (listing_things root) with
              | m :: _ => r <| Replies_More := Some m |>
              | [] => r
              end in
            (r, None)
        end
    end.

(** [var l [2]listing; json.Unmarshal(data, &l)].  An array destination
    takes the elements of a JSON array one by one: those beyond its
    length are skipped, and the places the JSON array does not reach are
    set to zero.  [null] leaves it as it is. *)
Definition listingPair_store_with : store (listing * listing) :=
  fun j dst =>
    match j with
    | JArray [] => Ok (new_listing, new_listing)
    | JArray [e0] =>
        l0 <- listing_store_with e0 (fst dst) ;;
        Ok (l0, new_listing)
    | JArray (e0 :: e1 :: _) =>
        l0 <- listing_store_with e0 (fst dst) ;;
        l1 <- listing_store_with e1 (snd dst) ;;
        Ok (l0, l1)
    | JNull => Ok dst
    | _ => Err DecodeError
    end.

(** [PostAndComments.UnmarshalJSON].  [l[0].Posts[0]] is an index
    expression on a slice: it panics when the slice is empty. *)
Definition PostAndComments_UnmarshalJSON_with (data : json)
  (pc : PostAndComments) : outcome (PostAndComments * option error) :=
  match
    json_Unmarshal listingPair_store_with (Some data)
      (new_listing, new_listing)
  with
  | Err err => Returned (pc, Some err)
  | Ok l =>
      match things_Posts (listing_things (fst l)) with
      | [] => Panicked IndexOutOfRange
      | post :: _ =>
          let pc := pc <| PostAndComments_Post := Some post |> in
          let pc := pc <| PostAndComments_Comments :=
                           things_Comments (listing_things (snd l)) |> in
          let pc :=
            match things_Mores (listing_things (snd l)) with
            | m :: _ => pc <| PostAndComments_More := Some m |>
            | [] => pc
            end in
          Returned (pc, None)
      end
  end.

(** [Comment], by its [json] tags; [Replies] has its own
    [UnmarshalJSON]. *)
Definition Comment_fields_with : fields Comment :=
  [ ("id", field Comment_ID stringStore);
    ("name", field Comment_FullID stringStore);
    ("created_utc",
      field Comment_Created (ptrStore Timestamp_zero Timestamp_store));
    ("edited",
      field Comment_Edited (ptrStore Timestamp_zero Timestamp_store));
    ("parent_id", field Comment_ParentID stringStore);
    ("permalink", field Comment_Permalink stringStore);
    ("body", field Comment_Body stringStore);
    ("author", field Comment_Author stringStore);
    ("author_fullname", field Comment_AuthorID stringStore);
    ("author_flair_text", field Comment_AuthorFlairText stringStore);
    ("author_flair_template_id", field Comment_AuthorFlairID stringStore);
    ("subreddit", field Comment_SubredditName stringStore);
    ("subreddit_name_prefixed",
      field Comment_SubredditNamePrefixed stringStore);
    ("subreddit_id", field Comment_SubredditID stringStore);
    ("likes", field Comment_Likes (ptrStore false boolStore));
    ("score", field Comment_Score intStore);
    ("controversiality", field Comment_Controversiality intStore);
    ("link_id", field Comment_PostID stringStore);
    ("link_title", field Comment_PostTitle stringStore);
    ("link_permalink", field Comment_PostPermalink stringStore);
    ("link_author", field Comment_PostAuthor stringStore);
    ("num_comments", field Comment_PostNumComments (ptrStore 0%Z intStore));
    ("is_submitter", field Comment_IsSubmitter boolStore);
    ("score_hidden", field Comment_ScoreHidden boolStore);
    ("saved", field Comment_Saved boolStore);
    ("stickied", field Comment_Stickied boolStore);
    ("locked", field Comment_Locked boolStore);
    ("can_gild", field Comment_CanGild boolStore);
    ("over_18", field Comment_NSFW boolStore);
    ("replies",
      field Comment_Replies (viaUnmarshaler Replies_UnmarshalJSON_with)) ].

(** One unfolding of the comment decoder. *)
Definition Comment_store_with : store Comment :=
  structStore Comment_fields_with.
End OpenRecursion.

(** The comment decoder.  A comment inside the replies of a comment lies
    at least five levels deeper in the input (replies, data, children, the
    thing, its data), so [depth] bounds the unfoldings a value needs;
    [Comment_store_unfold] below shows that the bound is enough. *)
Fixpoint Comment_store_upto (n : nat) : store Comment :=
  match n with
  | O => fun _ _ => Err DecodeError
  | S n' => Comment_store_with (Comment_store_upto n')
  end.

Definition Comment_store : store Comment :=
  fun j dst => Comment_store_upto (S (depth j)) j dst.

Definition things_UnmarshalJSON : unmarshaler things :=
  things_UnmarshalJSON_with Comment_store.

Definition listing_UnmarshalJSON : unmarshaler listing :=
  listing_UnmarshalJSON_with Comment_store.

Definition Replies_UnmarshalJSON : unmarshaler Replies :=
  Replies_UnmarshalJSON_with Comment_store.

Definition PostAndComments_UnmarshalJSON :=
  PostAndComments_UnmarshalJSON_with Comment_store.

(** *** The comment tree *)

(** [Comment.HasMore]: whether the comment has more replies to load in its
    reply tree. *)
Definition Comment_HasMore (c : Comment) : bool :=
  match Replies_More (Comment_Replies c) with
  | Some more => (0 <? length (More_Children more))%nat
  | None => false
  end.

(** [Comment.addCommentToReplies]: traverses the comment tree to find the
    one that the second comment is replying to, and adds it to its replies.
    The loop calls the method on every reply, which updates that reply in
    place. *)
Fixpoint Comment_addCommentToReplies (c comment : Comment) : Comment :=
  if String.eqb (Comment_FullID c) (Comment_ParentID comment) then
    c <| Comment_Replies -> Replies_Comments ::= fun s => s ++ [comment] |>
  else
    c <| Comment_Replies -> Replies_Comments :=
           map (fun reply => Comment_addCommentToReplies reply comment)
             (Replies_Comments (Comment_Replies c)) |>.

(** [Comment.addMoreToReplies]. *)
Fixpoint Comment_addMoreToReplies (c : Comment) (more : More) : Comment :=
  if String.eqb (Comment_FullID c) (More_ParentID more) then
    c <| Comment_Replies -> Replies_More := Some more |>
  else
    c <| Comment_Replies -> Replies_Comments :=
           map (fun reply => Comment_addMoreToReplies reply more)
             (Replies_Comments (Comment_Replies c)) |>.

(** [PostAndComments.HasMore]. *)
Definition PostAndComments_HasMore (pc : PostAndComments) : bool :=
  match PostAndComments_More pc with
  | Some more => (0 <? length (More_Children more))%nat
  | None => false
  end.

(** [PostAndComments.addCommentToTree]; [pc.Post.FullID] dereferences
    [pc.Post]. *)
Definition PostAndComments_addCommentToTree (pc : PostAndComments)
  (comment : Comment) : outcome PostAndComments :=
  match PostAndComments_Post pc with
  | None => Panicked NilDereference
  | Some post =>
      if String.eqb (Post_FullID post) (Comment_ParentID comment) then
        Returned
          (pc <| PostAndComments_Comments ::= fun s => s ++ [comment] |>)
      else
        Returned
          (pc <| PostAndComments_Comments :=
                  map (fun reply => Comment_addCommentToReplies reply comment)
                    (PostAndComments_Comments pc) |>)
  end.

(** [PostAndComments.addMoreToTree]; unlike the method above it does not
    return after it has set [pc.More], and goes on to the loop. *)
Definition PostAndComments_addMoreToTree (pc : PostAndComments)
  (more : More) : outcome PostAndComments :=
  match PostAndComments_Post pc with
  | None => Panicked NilDereference
  | Some post =>
      let pc :=
        if String.eqb (Post_FullID post) (More_ParentID more) then
          pc <| PostAndComments_More := Some more |>
        else pc in
      Returned
        (pc <| PostAndComments_Comments :=
                map (fun reply => Comment_addMoreToReplies reply more)
                  (PostAndComments_Comments pc) |>)
  end.

(** *** Encoding

    [encoding/json] writes the fields of a struct in their order; a field
    tagged [omitempty] is left out when it is empty (an empty string, a nil
    pointer). *)
Definition omitemptyString (name s : string) : list (string * json) :=
  if String.eqb s "" then [] else [(name, JString s)].

Definition omitemptyTimestamp (name : string) (t : option Timestamp)
  : result (list (string * json)) :=
  match t with
  | None => Ok []
  | Some ts => j <- Timestamp_Marshal ts ;; Ok [(name, j)]
  end.

Definition omitemptyInt (name : string) (n : option Z)
  : list (string * json) :=
  match n with
  | None => []
  | Some z => [(name, JNumber (FormatInt z))]
  end.

Definition ptrBool (b : option bool) : json :=
  match b with
  | None => JNull
  | Some v => JBool v
  end.

(** The object [encoding/json] writes for a [Comment], given what its
    timestamps and its replies encode to.  Strings are taken to be valid
    UTF-8, which the encoder writes as they are. *)
Definition Comment_object (c : Comment) (created edited : list (string * json))
  (replies : json) : json :=
  JObject
    (omitemptyString "id" (Comment_ID c)
     ++ omitemptyString "name" (Comment_FullID c)
     ++ created
     ++ edited
     ++ omitemptyString "parent_id" (Comment_ParentID c)
     ++ omitemptyString "permalink" (Comment_Permalink c)
     ++ omitemptyString "body" (Comment_Body c)
     ++ omitemptyString "author" (Comment_Author c)
     ++ omitemptyString "author_fullname" (Comment_AuthorID c)
     ++ omitemptyString "author_flair_text" (Comment_AuthorFlairText c)
     ++ omitemptyString "author_flair_template_id" (Comment_AuthorFlairID c)
     ++ omitemptyString "subreddit" (Comment_SubredditName c)
     ++ omitemptyString "subreddit_name_prefixed"
          (Comment_SubredditNamePrefixed c)
     ++ omitemptyString "subreddit_id" (Comment_SubredditID c)
     ++ [ ("likes", ptrBool (Comment_Likes c));
          ("score", JNumber (FormatInt (Comment_Score c)));
          ("controversiality",
            JNumber (FormatInt (Comment_Controversiality c))) ]
     ++ omitemptyString "link_id" (Comment_PostID c)
     ++ omitemptyString "link_title" (Comment_PostTitle c)
     ++ omitemptyString "link_permalink" (Comment_PostPermalink c)
     ++ omitemptyString "link_author" (Comment_PostAuthor c)
     ++ omitemptyInt "num_comments" (Comment_PostNumComments c)
     ++ [ ("is_submitter", JBool (Comment_IsSubmitter c));
          ("score_hidden", JBool (Comment_ScoreHidden c));
          ("saved", JBool (Comment_Saved c));
          ("stickied", JBool (Comment_Stickied c));
          ("locked", JBool (Comment_Locked c));
          ("can_gild", JBool (Comment_CanGild c));
          ("over_18", JBool (Comment_NSFW c));
          ("replies", replies) ]).

(** [json.Marshal] of a [*Comment].  The field [Replies] is reached through
    the pointer, so its [MarshalJSON] is used: [null] when it holds no
    comment, the array of its comments otherwise
    ([json_Marshal_Comment_unfold] below). *)
Fixpoint json_Marshal_Comment (c : Comment) : result json :=
  created <- omitemptyTimestamp "created_utc" (Comment_Created c) ;;
  edited <- omitemptyTimestamp "edited" (Comment_Edited c) ;;
  replies <-
    match Replies_Comments (Comment_Replies c) with
    | [] => Ok JNull
    | comments =>
        js <-
          (fix each (s : list Comment) : result (list json) :=
             match s with
             | [] => Ok []
             | x :: rest =>
                 j <- json_Marshal_Comment x ;;
                 js <- each rest ;;
                 Ok (j :: js)
             end) comments ;;
        Ok (JArray js)
    end ;;
  Ok (Comment_object c created edited replies).

(** [json.Marshal] of a [[]*Comment] that is not nil. *)
Fixpoint json_Marshal_Comments (s : list Comment) : result (list json) :=
  match s with
  | [] => Ok []
  | x :: rest =>
      j <- json_Marshal_Comment x ;;
      js <- json_Marshal_Comments rest ;;
      Ok (j :: js)
  end.

(** [Replies.MarshalJSON]; the receiver may be nil. *)
Definition Replies_MarshalJSON (r : option Replies) : result json :=
  match r with
  | None => Ok JNull
  | Some r =>
      if (length (Replies_Comments r) =? 0)%nat then Ok JNull
      else js <- json_Marshal_Comments (Replies_Comments r) ;; Ok (JArray js)
  end.

(** *** Vocabulary of the properties *)

Unset Implicit Arguments.

(** Induction over a comment tree: a property that holds of a comment when
    it holds of all its replies holds of every comment. *)
Fixpoint Comment_tree_ind (P : Comment -> Prop)
  (step : forall c, Forall P (Replies_Comments (Comment_Replies c)) -> P c)
  (c : Comment) : P c :=
  step c
    ((fix all (s : list Comment) : Forall P s :=
        match s with
        | [] => Forall_nil P
        | x :: rest => Forall_cons x (Comment_tree_ind P step x) (all rest)
        end) (Replies_Comments (Comment_Replies c))).

Set Implicit Arguments.

(** The fullIDs of the nodes of a comment tree, the root first. *)
Fixpoint Comment_fullIDs (c : Comment) : list string :=
  Comment_FullID c
    :: flat_map Comment_fullIDs (Replies_Comments (Comment_Replies c)).

(** The fullIDs of the nodes of an aggregate: the post, then the comments. *)
Definition PostAndComments_fullIDs (pc : PostAndComments) : list string :=
  match PostAndComments_Post pc with
  | Some post => [Post_FullID post]
  | None => []
  end ++ flat_map Comment_fullIDs (PostAndComments_Comments pc).

(** The first node of a comment tree, in document order, with a given
    fullID. *)
Fixpoint Comment_find (id : string) (c : Comment) : option Comment :=
  if String.eqb (Comment_FullID c) id then Some c
  else
    (fix first (s : list Comment) : option Comment :=
       match s with
       | [] => None
       | x :: rest =>
           match Comment_find id x with
           | Some n => Some n
           | None => first rest
           end
       end) (Replies_Comments (Comment_Replies c)).

Fixpoint Comments_find (id : string) (s : list Comment) : option Comment :=
  match s with
  | [] => None
  | x :: rest =>
      match Comment_find id x with
      | Some n => Some n
      | None => Comments_find id rest
      end
  end.

(** The placeholder slot of the first node with a given fullID: [None]
    when no node has it, [Some slot] otherwise. *)
Definition Comment_slot (id : string) (c : Comment) : option (option More) :=
  option_map (fun n => Replies_More (Comment_Replies n)) (Comment_find id c).

Definition PostAndComments_slot (id : string) (pc : PostAndComments)
  : option (option More) :=
  match PostAndComments_Post pc with
  | Some post =>
      if String.eqb (Post_FullID post) id then Some (PostAndComments_More pc)
      else
        option_map (fun n => Replies_More (Comment_Replies n))
          (Comments_find id (PostAndComments_Comments pc))
  | None => None
  end.

(** The records of one kind among a sequence of things, in their order:
    those of the things of that kind whose data decodes. *)
Definition bucket {T : Type} (kind : string) (st : store T) (zero : T)
  (ths : list thing) : list T :=
  flat_map
    (fun th =>
       if String.eqb (thing_Kind th) kind then
         match json_Unmarshal st (thing_Data th) zero with
         | Ok v => [v]
         | Err _ => []
         end
       else [])
    ths.

(** Whether a thing is of a supported kind and its data decodes as that
    kind's record. *)
Definition supported (th : thing) : bool :=
  let kind := thing_Kind th in
  let data := thing_Data th in
  (String.eqb kind kindComment
     && isOk (json_Unmarshal Comment_store data new_Comment))
  || (String.eqb kind kindMore
        && isOk (json_Unmarshal More_store data new_More))
  || (String.eqb kind kindAccount
        && isOk (json_Unmarshal User_store data User_zero))
  || (String.eqb kind kindPost
        && isOk (json_Unmarshal Post_store data new_Post))
  || (String.eqb kind kindSubreddit
        && isOk (json_Unmarshal Subreddit_store data new_Subreddit))
  || (String.eqb kind kindModAction
        && isOk (json_Unmarshal ModAction_store data ModAction_zero)).

(** The shapes the listing decoder accepts.  A member is looked at only
    when it names a field; what a thing's kind is and what its data holds
    play no part. *)
Definition stringOrNull (j : json) : bool :=
  match j with
  | JString _ | JNull => true
  | _ => false
  end.

Definition membersShape (check : string -> json -> bool)
  (members : list (string * json)) : bool :=
  forallb (fun m => check (foldName (fst m)) (snd m)) members.

Definition thingShape (j : json) : bool :=
  match j with
  | JNull => true
  | JObject members =>
      membersShape
        (fun name v => if String.eqb name "kind" then stringOrNull v else true)
        members
  | _ => false
  end.

Definition childrenShape (j : json) : bool :=
  match j with
  | JNull => true
  | JArray elems => forallb thingShape elems
  | _ => false
  end.

Definition dataShape (j : json) : bool :=
  match j with
  | JNull => true
  | JObject members =>
      membersShape
        (fun name v =>
           if String.eqb name "children" then childrenShape v
           else if String.eqb name "after" then stringOrNull v
           else if String.eqb name "before" then stringOrNull v
           else true)
        members
  | _ => false
  end.

Definition listingShape (j : json) : bool :=
  match j with
  | JNull => true
  | JObject members =>
      membersShape
        (fun name v => if String.eqb name "data" then dataShape v else true)
        members
  | _ => false
  end.

(** The shapes the aggregate decoder accepts: [null], or an array whose
    first two elements, as far as they exist, have the shape of a listing. *)
Definition pairShape (j : json) : bool :=
  match j with
  | JNull => true
  | JArray elems => forallb listingShape (firstn 2 elems)
  | _ => false
  end.

(** The listing at a place of the array: the decoded element, or the zero
    listing where the array has no element. *)
Definition listingAt (i : nat) (j : json) : listing :=
  match j with
  | JArray elems =>
      match nth_error elems i with
      | Some e => fst (listing_UnmarshalJSON e new_listing)
      | None => new_listing
      end
  | _ => new_listing
  end.

(** A listing envelope around the children given. *)
Definition listingOf (children : json) : json :=
  JObject
    [ ("kind", JString kindListing);
      ("data", JObject [("children", children)]) ].

(** *** The anchors of a listing *)

(** [listing.After]. *)
Definition listing_After (l : listing) : string := listing_after l.

(** [listing.Before]. *)
Definition listing_Before (l : listing) : string := listing_before l.

(** *** Further vocabulary *)

(** A comment with one more reply at the end of its replies. *)
Definition withReply (comment n : Comment) : Comment :=
  n <| Comment_Replies -> Replies_Comments ::= fun s => s ++ [comment] |>.

(** The string of an anchor on the wire; [null] stands for no anchor. *)
Definition anchorOf (j : json) : string :=
  match j with
  | JString s => s
  | _ => ""
  end.

(** The wire form of a listing in a response: its kind, and its data with
    children and anchors. *)
Definition listingEnvelope (kind children after before : json) : json :=
  JObject
    [ ("kind", kind);
      ("data",
        JObject
          [ ("after", after); ("children", children); ("before", before) ]) ].

(** Whether a member of an object is named [data]. *)
Definition namedData (m : string * json) : bool :=
  String.eqb (foldName (fst m)) "data".

End Reddit.

(** ** A stand-in for the rest of the package

    Modelled from the spec: [Timestamp], [User], [ModAction] (declared
    outside [things.go]) and [float32].  The spec says of [Timestamp] that it
    decodes from a numeric epoch on the wire, and of accounts and moderation
    actions that they are flat metadata records.  Here a time value and a
    float are the number literal they were read from, and an account or a
    moderation action is the list of the members of its object.  The theorems
    below hold for every [Collaborators]; this one serves to run the decoders
    on concrete inputs. *)
Definition numberStore : store string :=
  fun j dst =>
    match j with
    | JNumber lit => Ok lit
    | JNull => Ok dst
    | _ => Err DecodeError
    end.

Definition membersOnlyStore : store (list (string * json)) :=
  fun j dst =>
    match j with
    | JObject members => Ok members
    | JNull => Ok dst
    | _ => Err DecodeError
    end.

Definition standIn : Collaborators :=
  {| Timestamp := string;
     Timestamp_zero := "0";
     Timestamp_store := numberStore;
     Timestamp_Marshal := fun lit => Ok (JNumber lit);
     float32 := string;
     float32_zero := "0";
     float32_store := numberStore;
     User := list (string * json);
     User_zero := [];
     User_store := membersOnlyStore;
     ModAction := list (string * json);
     ModAction_zero := [];
     ModAction_store := membersOnlyStore |}.

(** ** Sample values

    The trees and wire values the properties are run on, over [standIn]. *)

(** A thing on the wire. *)
Definition thingOf (kind : string) (data : json) : json :=
  JObject [("kind", JString kind); ("data", data)].

Definition samplePost : Post (collaborators := standIn) :=
  new_Post <| Post_ID := "abc" |> <| Post_FullID := "ROOT" |>.

Definition samplePostAndComments : PostAndComments (collaborators := standIn) :=
  {| PostAndComments_Post := Some samplePost;
     PostAndComments_Comments := [];
     PostAndComments_More := None |}.

Definition sampleRoot : Comment (collaborators := standIn) :=
  new_Comment <| Comment_FullID := "ROOT" |>.

Definition sampleParent : Comment (collaborators := standIn) :=
  new_Comment <| Comment_FullID := "A" |> <| Comment_ParentID := "ROOT" |>.

Definition sampleChild : Comment (collaborators := standIn) :=
  new_Comment <| Comment_FullID := "B" |> <| Comment_ParentID := "A" |>.

Definition sampleMore1 : More :=
  new_More <| More_FullID := "more_1" |> <| More_ParentID := "ROOT" |>
           <| More_Children := ["t1_2"; "t1_3"] |>.

Definition sampleMore2 : More :=
  new_More <| More_FullID := "more_2" |> <| More_ParentID := "ROOT" |>
           <| More_Children := ["t1_4"] |>.

(** A container with one comment and a placeholder, and what it encodes to. *)
Definition sampleReplies : Replies (collaborators := standIn) :=
  {| Replies_Comments := [sampleChild]; Replies_More := Some sampleMore1 |}.

Definition sampleRepliesJSON : json :=
  JArray
    [ JObject
        [ ("name", JString "B"); ("parent_id", JString "A");
          ("likes", JNull); ("score", JNumber "0");
          ("controversiality", JNumber "0");
          ("is_submitter", JBool false); ("score_hidden", JBool false);
          ("saved", JBool false); ("stickied", JBool false);
          ("locked", JBool false); ("can_gild", JBool false);
          ("over_18", JBool false); ("replies", JNull) ] ].

(** The children of a listing: a comment, a thing of a kind that is not
    supported, a post without data, and a placeholder whose data is not an
    object. *)
Definition sampleChildren : json :=
  JArray
    [ thingOf "t1" (JObject [("name", JString "A"); ("parent_id", JString "ROOT")]);
      thingOf "t9" (JObject [("name", JString "t9_x")]);
      JObject [("kind", JString "t3")];
      thingOf "more" (JNumber "5") ].

Definition sampleThings : list thing :=
  [ {| thing_Kind := "t1";
       thing_Data :=
         Some (JObject [("name", JString "A"); ("parent_id", JString "ROOT")]) |};
    {| thing_Kind := "t9";
       thing_Data := Some (JObject [("name", JString "t9_x")]) |};
    {| thing_Kind := "t3"; thing_Data := None |};
    {| thing_Kind := "more"; thing_Data := Some (JNumber "5") |} ].

(** The response for a post: an array of one listing, the post's, and an
    array of two listings without children. *)
Definition samplePostOnly : json :=
  JArray [listingOf (JArray [thingOf "t3" (JObject [("name", JString "ROOT")])])].

Definition sampleNoPost : json :=
  JArray [listingOf (JArray []); listingOf (JArray [])].

(** A listing whose only child has a number for its kind. *)
Definition sampleBadChild : json :=
  listingOf (JArray [JObject [("kind", JNumber "7"); ("data", JObject [])]]).

(** A tree with one reply, a comment for its root and a comment for that
    reply, and a placeholder for a parent that is nowhere. *)
Definition sampleTree : Comment (collaborators := standIn) :=
  sampleRoot <| Comment_Replies -> Replies_Comments := [sampleParent] |>.

Definition sampleOther : Comment (collaborators := standIn) :=
  new_Comment <| Comment_FullID := "C" |> <| Comment_ParentID := "ROOT" |>.

Definition sampleAggregate : PostAndComments (collaborators := standIn) :=
  {| PostAndComments_Post := Some samplePost;
     PostAndComments_Comments := [sampleParent];
     PostAndComments_More := None |}.

Definition sampleMoreElsewhere : More :=
  new_More <| More_FullID := "more_9" |> <| More_ParentID := "Z" |>
           <| More_Children := ["t1_9"] |>.


(** What [json.Marshal] writes for [sampleTree] and for [sampleLeaf]. *)
Definition sampleTreeJSON : json :=
  Eval vm_compute in
    match json_Marshal_Comment sampleTree with
    | Ok j => j
    | Err _ => JNull
    end.


(** The children of the replies of a comment: a comment and two
    placeholders. *)
Definition sampleReplyChildren : json :=
  JArray
    [ thingOf "t1" (JObject [("name", JString "B"); ("parent_id", JString "A")]);
      thingOf "more"
        (JObject [("name", JString "more_1"); ("parent_id", JString "ROOT");
                  ("children", JArray [JString "t1_2"; JString "t1_3"])]);
      thingOf "more"
        (JObject [("name", JString "more_2"); ("parent_id", JString "ROOT");
                  ("children", JArray [JString "t1_4"])]) ].

Definition sampleReplyThings : list thing :=
  [ {| thing_Kind := "t1";
       thing_Data :=
         Some (JObject [("name", JString "B"); ("parent_id", JString "A")]) |};
    {| thing_Kind := "more";
       thing_Data :=
         Some
           (JObject [("name", JString "more_1"); ("parent_id", JString "ROOT");
                     ("children", JArray [JString "t1_2"; JString "t1_3"])]) |};
    {| thing_Kind := "more";
       thing_Data :=
         Some
           (JObject [("name", JString "more_2"); ("parent_id", JString "ROOT");
                     ("children", JArray [JString "t1_4"])]) |} ].

(** * Properties *)

Section Properties.
Context {collaborators : Collaborators}.

(** ** Comment trees *)

Lemma Comment_find_unfold (id : string) (c : Comment) :
  Comment_find id c =
    if String.eqb (Comment_FullID c) id then Some c
    else Comments_find id (Replies_Comments (Comment_Replies c)).
Proof.
  destruct c as [? fullID ? ? ? ? ? ? ? ? ? ? ? ? ? ? ? ? ? ? ? ? ? ? ? ? ? ? ?
                   [comments more]].
  cbn [Comment_find Comment_FullID Comment_Replies Replies_Comments].
  destruct (String.eqb fullID id); [reflexivity |].
  induction comments as [| x rest IH]; [reflexivity |].
  cbn [Comments_find]. now rewrite IH.
Qed.

Lemma set_replies_same (c : Comment) :
  c <| Comment_Replies -> Replies_Comments :=
         Replies_Comments (Comment_Replies c) |> = c.
Proof. destruct c as [? ? ? ? ? ? ? ? ? ? ? ? ? ? ? ? ? ? ? ? ? ? ? ? ? ? ? ? ? []]. reflexivity. Qed.

Lemma map_fixed {A : Type} (f : A -> A) (s : list A) :
  Forall (fun x => f x = x) s -> map f s = s.
Proof.
  induction 1 as [| x rest Hx _ IH]; [reflexivity |].
  cbn. now rewrite Hx, IH.
Qed.

Lemma Comment_addCommentToReplies_unfold (c comment : Comment) :
  Comment_addCommentToReplies c comment =
    if String.eqb (Comment_FullID c) (Comment_ParentID comment) then
      c <| Comment_Replies -> Replies_Comments ::= fun s => s ++ [comment] |>
    else
      c <| Comment_Replies -> Replies_Comments :=
             map (fun reply => Comment_addCommentToReplies reply comment)
               (Replies_Comments (Comment_Replies c)) |>.
Proof. destruct c; reflexivity. Qed.

Lemma Comment_addMoreToReplies_unfold (c : Comment) (more : More) :
  Comment_addMoreToReplies c more =
    if String.eqb (Comment_FullID c) (More_ParentID more) then
      c <| Comment_Replies -> Replies_More := Some more |>
    else
      c <| Comment_Replies -> Replies_Comments :=
             map (fun reply => Comment_addMoreToReplies reply more)
               (Replies_Comments (Comment_Replies c)) |>.
Proof. destruct c; reflexivity. Qed.

Lemma Comment_fullIDs_unfold (c : Comment) :
  Comment_fullIDs c =
    Comment_FullID c
      :: flat_map Comment_fullIDs (Replies_Comments (Comment_Replies c)).
Proof. destruct c; reflexivity. Qed.

(** A comment whose parent is no node of the tree changes nothing. *)
Lemma Comment_addCommentToReplies_unmatched (comment c : Comment) :
  ~ In (Comment_ParentID comment) (Comment_fullIDs c) ->
  Comment_addCommentToReplies c comment = c.
Proof.
  induction c as [c IH] using Comment_tree_ind. intros Hno.
  rewrite Comment_fullIDs_unfold in Hno.
  rewrite Comment_addCommentToReplies_unfold.
  destruct (String.eqb_spec (Comment_FullID c) (Comment_ParentID comment))
    as [Heq | _].
  - exfalso. apply Hno. left. exact Heq.
  - rewrite map_fixed; [apply set_replies_same |].
    rewrite Forall_forall in IH |- *. intros reply Hin.
    apply IH; [exact Hin |].
    intros Hp. apply Hno. right. apply in_flat_map. now exists reply.
Qed.

Lemma Comments_addComment_unmatched (comment : Comment) (s : list Comment) :
  ~ In (Comment_ParentID comment) (flat_map Comment_fullIDs s) ->
  map (fun reply => Comment_addCommentToReplies reply comment) s = s.
Proof.
  intros Hno. apply map_fixed. rewrite Forall_forall. intros reply Hin.
  apply Comment_addCommentToReplies_unmatched.
  intros Hp. apply Hno. apply in_flat_map. now exists reply.
Qed.

(** **** C6
    Attaching a comment whose [ParentID] is the fullID of no node of the tree
    returns (no error, no panic) and leaves the whole tree as it was: the
    comment is dropped and appears nowhere.  This holds for an aggregate
    (whose post is there) and for a comment as the root. *)
Theorem attach_comment_without_parent
  (pc : PostAndComments) (post : Post) (root comment : Comment) :
  PostAndComments_Post pc = Some post ->
  ~ In (Comment_ParentID comment) (PostAndComments_fullIDs pc) ->
  ~ In (Comment_ParentID comment) (Comment_fullIDs root) ->
  PostAndComments_addCommentToTree pc comment = Returned pc
  /\ Comment_addCommentToReplies root comment = root.
Proof.
  intros Hpost Hpc Hroot. split.
  - unfold PostAndComments_addCommentToTree, PostAndComments_fullIDs in *.
    rewrite Hpost in *. cbn [app] in Hpc.
    destruct (String.eqb_spec (Post_FullID post) (Comment_ParentID comment))
      as [Heq | _].
    + exfalso. apply Hpc. left. exact Heq.
    + rewrite Comments_addComment_unmatched.
      * destruct pc; reflexivity.
      * intros Hin. apply Hpc. right. exact Hin.
  - now apply Comment_addCommentToReplies_unmatched.
Qed.

Lemma Comment_FullID_set_replies (c : Comment) (f : list Comment -> list Comment) :
  Comment_FullID (c <| Comment_Replies -> Replies_Comments ::= f |>)
  = Comment_FullID c.
Proof. destruct c; reflexivity. Qed.

Lemma Replies_Comments_set_replies (c : Comment)
  (f : list Comment -> list Comment) :
  Replies_Comments
    (Comment_Replies (c <| Comment_Replies -> Replies_Comments ::= f |>))
  = f (Replies_Comments (Comment_Replies c)).
Proof. destruct c as [? ? ? ? ? ? ? ? ? ? ? ? ? ? ? ? ? ? ? ? ? ? ? ? ? ? ? ? ? []]. reflexivity. Qed.

Lemma set_replies_twice (c : Comment) (f g : list Comment -> list Comment) :
  c <| Comment_Replies -> Replies_Comments ::= f |>
    <| Comment_Replies -> Replies_Comments ::= g |>
  = c <| Comment_Replies -> Replies_Comments ::= fun s => g (f s) |>.
Proof. destruct c as [? ? ? ? ? ? ? ? ? ? ? ? ? ? ? ? ? ? ? ? ? ? ? ? ? ? ? ? ? []]. reflexivity. Qed.

Lemma set_replies_ext (c : Comment) (f g : list Comment -> list Comment) :
  f (Replies_Comments (Comment_Replies c))
  = g (Replies_Comments (Comment_Replies c)) ->
  c <| Comment_Replies -> Replies_Comments ::= f |>
  = c <| Comment_Replies -> Replies_Comments ::= g |>.
Proof.
  destruct c as [? ? ? ? ? ? ? ? ? ? ? ? ? ? ? ? ? ? ? ? ? ? ? ? ? ? ? ? ? []].
  cbn. intros ->. reflexivity.
Qed.

(** The child finds the parent that was attached just before it. *)
Lemma Comment_attach_child_to (parent child : Comment) :
  Comment_FullID parent = Comment_ParentID child ->
  Replies_Comments (Comment_Replies parent) = [] ->
  Comment_addCommentToReplies parent child
  = parent <| Comment_Replies -> Replies_Comments := [child] |>.
Proof.
  intros Hid Hnone. rewrite Comment_addCommentToReplies_unfold.
  rewrite Hid, String.eqb_refl.
  apply set_replies_ext. unfold constant. now rewrite Hnone.
Qed.

(** **** C2
    Attaching [parent] (fullID [A], parent [ROOT]) and then [child] (parent
    [A]) to a root with fullID [ROOT] and no comments gives a tree in which the
    root's comments are exactly [parent] and the replies of [parent] are
    exactly [child].  The root is an aggregate or a comment; [A] and [ROOT]
    are different fullIDs, and [parent] arrives without replies. *)
Theorem attach_parent_then_child
  (pc : PostAndComments) (post : Post) (root parent child : Comment)
  (ROOT A : string) :
  PostAndComments_Post pc = Some post ->
  Post_FullID post = ROOT ->
  PostAndComments_Comments pc = [] ->
  Comment_FullID root = ROOT ->
  Replies_Comments (Comment_Replies root) = [] ->
  Comment_FullID parent = A ->
  Comment_ParentID parent = ROOT ->
  Replies_Comments (Comment_Replies parent) = [] ->
  Comment_ParentID child = A ->
  A <> ROOT ->
  let attached := parent <| Comment_Replies -> Replies_Comments := [child] |> in
  Replies_Comments (Comment_Replies attached) = [child]
  /\ (exists pc1,
        PostAndComments_addCommentToTree pc parent = Returned pc1
        /\ PostAndComments_addCommentToTree pc1 child
           = Returned (pc <| PostAndComments_Comments := [attached] |>))
  /\ Comment_addCommentToReplies
       (Comment_addCommentToReplies root parent) child
     = root <| Comment_Replies -> Replies_Comments := [attached] |>.
Proof.
  intros Hpost Hpid Hpcs Hrid Hrcs Hparent Hpparent Hpnone Hchild Hdiff attached.
  assert (Hstep : Comment_addCommentToReplies parent child = attached).
  { apply Comment_attach_child_to; [congruence | exact Hpnone]. }
  assert (Hne : String.eqb ROOT A = false).
  { apply String.eqb_neq. congruence. }
  split; [| split].
  - subst attached. apply Replies_Comments_set_replies.
  - exists (pc <| PostAndComments_Comments := [parent] |>). split.
    + unfold PostAndComments_addCommentToTree.
      rewrite Hpost, Hpid, Hpparent, String.eqb_refl.
      destruct pc; cbn in *. now subst.
    + unfold PostAndComments_addCommentToTree.
      replace (PostAndComments_Post (pc <| PostAndComments_Comments := [parent] |>))
        with (Some post) by (destruct pc; exact (eq_sym Hpost)).
      rewrite Hpid, Hchild, Hne.
      destruct pc; cbn [map]. cbn. now rewrite Hstep.
  - rewrite (Comment_addCommentToReplies_unfold root parent).
    rewrite Hrid, Hpparent, String.eqb_refl.
    rewrite Comment_addCommentToReplies_unfold.
    rewrite Comment_FullID_set_replies, Hrid, Hchild, Hne.
    rewrite Replies_Comments_set_replies, Hrcs. cbn [app map].
    rewrite Hstep, set_replies_twice.
    apply set_replies_ext. reflexivity.
Qed.

(** **** C9
    [Comment.HasMore] and [PostAndComments.HasMore] answer true exactly when
    a placeholder is attached and its list of children is not empty; with a
    placeholder whose list of children is empty they answer false. *)
Theorem HasMore_iff_placeholder_with_children
  (c : Comment) (pc : PostAndComments) :
  (Comment_HasMore c = true <->
     exists more,
       Replies_More (Comment_Replies c) = Some more
       /\ More_Children more <> [])
  /\ (PostAndComments_HasMore pc = true <->
        exists more,
          PostAndComments_More pc = Some more /\ More_Children more <> [])
  /\ (forall more,
        Comment_HasMore
          (c <| Comment_Replies -> Replies_More :=
                 Some (more <| More_Children := [] |>) |>) = false)
  /\ (forall more,
        PostAndComments_HasMore
          (pc <| PostAndComments_More :=
                  Some (more <| More_Children := [] |>) |>) = false).
Proof.
  assert (Hlen : forall more : More,
             (0 <? length (More_Children more))%nat = true
             <-> More_Children more <> []).
  { intros more. destruct (More_Children more); cbn; split;
      intros H; congruence. }
  split; [| split; [| split]].
  - unfold Comment_HasMore. split.
    + destruct (Replies_More (Comment_Replies c)) as [more |]; [| discriminate].
      intros H. exists more. split; [reflexivity | now apply Hlen].
    + intros (more & Hm & Hch). rewrite Hm. now apply Hlen.
  - unfold PostAndComments_HasMore. split.
    + destruct (PostAndComments_More pc) as [more |]; [| discriminate].
      intros H. exists more. split; [reflexivity | now apply Hlen].
    + intros (more & Hm & Hch). rewrite Hm. now apply Hlen.
  - intros more.
    destruct c as [? ? ? ? ? ? ? ? ? ? ? ? ? ? ? ? ? ? ? ? ? ? ? ? ? ? ? ? ? []].
    destruct more; reflexivity.
  - intros more. destruct pc, more; reflexivity.
Qed.

Lemma Comment_FullID_set_more (c : Comment) (slot : option More) :
  Comment_FullID (c <| Comment_Replies -> Replies_More := slot |>)
  = Comment_FullID c.
Proof. destruct c; reflexivity. Qed.

Lemma Replies_More_set_more (c : Comment) (slot : option More) :
  Replies_More (Comment_Replies (c <| Comment_Replies -> Replies_More := slot |>))
  = slot.
Proof. destruct c as [? ? ? ? ? ? ? ? ? ? ? ? ? ? ? ? ? ? ? ? ? ? ? ? ? ? ? ? ? []]. reflexivity. Qed.

Lemma set_more_twice (c : Comment) (first second : option More) :
  c <| Comment_Replies -> Replies_More := first |>
    <| Comment_Replies -> Replies_More := second |>
  = c <| Comment_Replies -> Replies_More := second |>.
Proof. destruct c as [? ? ? ? ? ? ? ? ? ? ? ? ? ? ? ? ? ? ? ? ? ? ? ? ? ? ? ? ? []]. reflexivity. Qed.

(** The second of two placeholders for the same parent leaves no trace of
    the first. *)
Lemma Comment_addMoreToReplies_twice (more1 more2 : More) (c : Comment) :
  More_ParentID more1 = More_ParentID more2 ->
  Comment_addMoreToReplies (Comment_addMoreToReplies c more1) more2
  = Comment_addMoreToReplies c more2.
Proof.
  intros Hsame. induction c as [c IH] using Comment_tree_ind.
  rewrite (Comment_addMoreToReplies_unfold c more1).
  rewrite (Comment_addMoreToReplies_unfold c more2).
  rewrite Hsame.
  destruct (String.eqb (Comment_FullID c) (More_ParentID more2)) eqn:Hid.
  - rewrite Comment_addMoreToReplies_unfold.
    rewrite Comment_FullID_set_more, Hid. apply set_more_twice.
  - rewrite Comment_addMoreToReplies_unfold.
    rewrite Comment_FullID_set_replies, Hid.
    rewrite Replies_Comments_set_replies, set_replies_twice.
    apply set_replies_ext. unfold constant. rewrite map_map.
    apply map_ext_in. intros reply Hin.
    rewrite Forall_forall in IH. now apply IH.
Qed.

Lemma Comments_addMore_twice (more1 more2 : More) (s : list Comment) :
  More_ParentID more1 = More_ParentID more2 ->
  map (fun reply => Comment_addMoreToReplies reply more2)
    (map (fun reply => Comment_addMoreToReplies reply more1) s)
  = map (fun reply => Comment_addMoreToReplies reply more2) s.
Proof.
  intros Hsame. rewrite map_map. apply map_ext. intros reply.
  now apply Comment_addMoreToReplies_twice.
Qed.

(** A fullID of the tree is found in it. *)
Lemma Comment_find_of_fullID (id : string) (c : Comment) :
  In id (Comment_fullIDs c) -> exists n, Comment_find id c = Some n.
Proof.
  induction c as [c IH] using Comment_tree_ind. intros Hin.
  rewrite Comment_fullIDs_unfold in Hin. rewrite Comment_find_unfold.
  destruct (String.eqb_spec (Comment_FullID c) id) as [_ | Hne].
  - now exists c.
  - destruct Hin as [Heq | Hin]; [contradiction |].
    induction IH as [| x rest Hx _ IHrest]; [contradiction |].
    cbn [flat_map] in Hin. cbn [Comments_find].
    apply in_app_or in Hin. destruct (Comment_find id x) as [n |] eqn:Hfind.
    + now exists n.
    + destruct Hin as [Hin | Hin]; [| now apply IHrest].
      destruct (Hx Hin) as [n Hn]. congruence.
Qed.

Lemma Comments_find_of_fullID (id : string) (s : list Comment) :
  In id (flat_map Comment_fullIDs s) -> exists n, Comments_find id s = Some n.
Proof.
  induction s as [| x rest IH]; [contradiction |].
  cbn [flat_map Comments_find]. intros Hin. apply in_app_or in Hin.
  destruct (Comment_find id x) as [n |] eqn:Hfind; [now exists n |].
  destruct Hin as [Hin | Hin]; [| now apply IH].
  destruct (Comment_find_of_fullID id x Hin) as [n Hn]. congruence.
Qed.

(** After a placeholder was attached, the first node with its parent's fullID
    holds it, when there is such a node. *)
Lemma Comment_find_addMore (more : More) (c : Comment) :
  option_map (fun n => Replies_More (Comment_Replies n))
    (Comment_find (More_ParentID more) (Comment_addMoreToReplies c more))
  = option_map (fun _ => Some more) (Comment_find (More_ParentID more) c).
Proof.
  induction c as [c IH] using Comment_tree_ind.
  rewrite Comment_addMoreToReplies_unfold, (Comment_find_unfold _ c).
  destruct (String.eqb (Comment_FullID c) (More_ParentID more)) eqn:Hid.
  - rewrite Comment_find_unfold, Comment_FullID_set_more, Hid.
    cbn [option_map]. now rewrite Replies_More_set_more.
  - rewrite Comment_find_unfold, Comment_FullID_set_replies, Hid.
    rewrite Replies_Comments_set_replies. unfold constant.
    induction IH as [| x rest Hx _ IHrest]; [reflexivity |].
    cbn [map Comments_find].
    destruct (Comment_find (More_ParentID more)
                (Comment_addMoreToReplies x more)) as [n |],
      (Comment_find (More_ParentID more) x) as [n' |];
      cbn [option_map] in Hx |- *; congruence.
Qed.

Lemma Comments_find_addMore (more : More) (s : list Comment) :
  option_map (fun n => Replies_More (Comment_Replies n))
    (Comments_find (More_ParentID more)
       (map (fun reply => Comment_addMoreToReplies reply more) s))
  = option_map (fun _ => Some more) (Comments_find (More_ParentID more) s).
Proof.
  induction s as [| x rest IH]; [reflexivity |].
  cbn [map Comments_find].
  pose proof (Comment_find_addMore more x) as Hx.
  destruct (Comment_find (More_ParentID more)
              (Comment_addMoreToReplies x more)) as [n |],
    (Comment_find (More_ParentID more) x) as [n' |];
    cbn [option_map] in Hx |- *; congruence.
Qed.

(** **** C7
    For two placeholders with the same [ParentID], the fullID of a node of
    the tree, attaching the first and then the second gives the tree that
    attaching the second alone gives, and the slot of the node with that
    fullID (the first one in document order) holds the second placeholder.
    The root is an aggregate (whose post is there) or a comment. *)
Theorem attach_placeholder_overwrites
  (pc : PostAndComments) (post : Post) (root : Comment) (more1 more2 : More)
  (P : string) :
  PostAndComments_Post pc = Some post ->
  More_ParentID more1 = P ->
  More_ParentID more2 = P ->
  In P (PostAndComments_fullIDs pc) ->
  In P (Comment_fullIDs root) ->
  (exists pc1 pc2,
      PostAndComments_addMoreToTree pc more1 = Returned pc1
      /\ PostAndComments_addMoreToTree pc1 more2 = Returned pc2
      /\ PostAndComments_addMoreToTree pc more2 = Returned pc2
      /\ PostAndComments_slot P pc2 = Some (Some more2))
  /\ Comment_addMoreToReplies (Comment_addMoreToReplies root more1) more2
     = Comment_addMoreToReplies root more2
  /\ Comment_slot P
       (Comment_addMoreToReplies (Comment_addMoreToReplies root more1) more2)
     = Some (Some more2).
Proof.
  intros Hpost H1 H2 Hpc Hroot.
  assert (Hsame : More_ParentID more1 = More_ParentID more2) by congruence.
  split; [| split].
  - unfold PostAndComments_addMoreToTree, PostAndComments_slot,
      PostAndComments_fullIDs in *.
    rewrite Hpost in *. cbn [app] in Hpc. rewrite H1, H2.
    destruct pc as [pcpost comments slot]. cbn in Hpost. subst pcpost.
    destruct (String.eqb (Post_FullID post) P) eqn:Hid.
    + eexists. eexists. split; [reflexivity |].
      cbn. rewrite Hid. cbn. unfold constant.
      rewrite (Comments_addMore_twice _ _ _ Hsame).
      split; [reflexivity | split; [reflexivity |]].
      cbn. now rewrite Hid.
    + eexists. eexists. split; [reflexivity |].
      cbn. rewrite Hid. cbn. unfold constant.
      rewrite (Comments_addMore_twice _ _ _ Hsame).
      split; [reflexivity | split; [reflexivity |]].
      cbn. rewrite Hid.
      cbn in Hpc. destruct Hpc as [Hpc | Hpc];
        [apply String.eqb_neq in Hid; contradiction |].
      destruct (Comments_find_of_fullID _ _ Hpc) as [n Hn].
      rewrite <- H2 in Hn |- *.
      rewrite Comments_find_addMore, Hn. reflexivity.
  - now apply Comment_addMoreToReplies_twice.
  - rewrite (Comment_addMoreToReplies_twice _ _ _ Hsame).
    unfold Comment_slot.
    destruct (Comment_find_of_fullID _ _ Hroot) as [n Hn].
    rewrite <- H2 in Hn |- *. rewrite Comment_find_addMore, Hn. reflexivity.
Qed.

(** ** The reply container *)

(** **** C10
    Decoding the wire value [""] into a reply container succeeds and leaves
    the receiver's comments and placeholder as they were, whatever they were;
    the container is empty afterwards exactly when it was empty before. *)
Theorem Replies_UnmarshalJSON_empty_string_keeps_receiver (r : Replies) :
  Replies_UnmarshalJSON (JString "") r = (r, None)
  /\ (fst (Replies_UnmarshalJSON (JString "") r) = new_Replies
      <-> r = new_Replies).
Proof. split; [reflexivity |]. cbn. tauto. Qed.

(** **** C8
    Decoding the wire value [""] into a fresh reply container succeeds and
    gives a container with no comments and no placeholder; a container with
    no comments, that one included, encodes as [null]. *)
Theorem Replies_empty_string_and_null :
  Replies_UnmarshalJSON (JString "") new_Replies = (new_Replies, None)
  /\ Replies_Comments new_Replies = []
  /\ Replies_More new_Replies = None
  /\ Replies_MarshalJSON
       (Some (fst (Replies_UnmarshalJSON (JString "") new_Replies)))
     = Ok JNull
  /\ (forall slot : option More,
        Replies_MarshalJSON
          (Some {| Replies_Comments := []; Replies_More := slot |})
        = Ok JNull).
Proof. repeat split. Qed.

(** ** The classifier *)

Lemma bucket_app {T : Type} (kind : string) (st : store T) (zero : T)
  (ths1 ths2 : list thing) :
  bucket kind st zero (ths1 ++ ths2)
  = bucket kind st zero ths1 ++ bucket kind st zero ths2.
Proof. unfold bucket. apply flat_map_app. Qed.

(** One turn of the loop adds what the thing contributes to each bucket. *)
Lemma things_case_buckets (decodeComment : store Comment) (t : things)
  (th : thing) :
  things_case decodeComment t th =
    {| things_Comments :=
         things_Comments t ++ bucket kindComment decodeComment new_Comment [th];
       things_Mores := things_Mores t ++ bucket kindMore More_store new_More [th];
       things_Users :=
         things_Users t ++ bucket kindAccount User_store User_zero [th];
       things_Posts := things_Posts t ++ bucket kindPost Post_store new_Post [th];
       things_Subreddits :=
         things_Subreddits t
         ++ bucket kindSubreddit Subreddit_store new_Subreddit [th];
       things_ModActions :=
         things_ModActions t
         ++ bucket kindModAction ModAction_store ModAction_zero [th] |}.
Proof.
  unfold things_case, bucket. cbn [flat_map]. cbv zeta.
  generalize (json_Unmarshal decodeComment (thing_Data th) new_Comment).
  generalize (json_Unmarshal More_store (thing_Data th) new_More).
  generalize (json_Unmarshal User_store (thing_Data th) User_zero).
  generalize (json_Unmarshal Post_store (thing_Data th) new_Post).
  generalize (json_Unmarshal Subreddit_store (thing_Data th) new_Subreddit).
  generalize (json_Unmarshal ModAction_store (thing_Data th) ModAction_zero).
  intros r6 r5 r4 r3 r2 r1. destruct t.
  repeat
    match goal with
    | |- context [String.eqb (thing_Kind th) ?kind] =>
        destruct (String.eqb_spec (thing_Kind th) kind) as [Hkind | _];
        [ rewrite ?Hkind;
          repeat match goal with r : result _ |- _ => destruct r end;
          cbn; now rewrite ?app_nil_r | ]
    end.
  cbn. now rewrite ?app_nil_r.
Qed.

Lemma things_loop_buckets (decodeComment : store Comment) (ths : list thing)
  (t : things) :
  fold_left (things_case decodeComment) ths t =
    {| things_Comments :=
         things_Comments t ++ bucket kindComment decodeComment new_Comment ths;
       things_Mores := things_Mores t ++ bucket kindMore More_store new_More ths;
       things_Users :=
         things_Users t ++ bucket kindAccount User_store User_zero ths;
       things_Posts := things_Posts t ++ bucket kindPost Post_store new_Post ths;
       things_Subreddits :=
         things_Subreddits t
         ++ bucket kindSubreddit Subreddit_store new_Subreddit ths;
       things_ModActions :=
         things_ModActions t
         ++ bucket kindModAction ModAction_store ModAction_zero ths |}.
Proof.
  revert t. induction ths as [| th rest IH]; intros t.
  - cbn. rewrite !app_nil_r. now destruct t.
  - cbn [fold_left]. rewrite IH, things_case_buckets.
    cbn [things_Comments things_Mores things_Users things_Posts
           things_Subreddits things_ModActions].
    change (th :: rest) with ([th] ++ rest).
    now rewrite !bucket_app, !app_assoc.
Qed.

(** A thing contributes one record to one bucket when it is supported, and
    nothing otherwise. *)
Lemma things_contribution (th : thing) :
  (length (bucket kindComment Comment_store new_Comment [th])
   + length (bucket kindMore More_store new_More [th])
   + length (bucket kindAccount User_store User_zero [th])
   + length (bucket kindPost Post_store new_Post [th])
   + length (bucket kindSubreddit Subreddit_store new_Subreddit [th])
   + length (bucket kindModAction ModAction_store ModAction_zero [th]))%nat
  = if supported th then 1%nat else 0%nat.
Proof.
  unfold supported, bucket. cbn [flat_map]. cbv zeta.
  generalize (json_Unmarshal Comment_store (thing_Data th) new_Comment).
  generalize (json_Unmarshal More_store (thing_Data th) new_More).
  generalize (json_Unmarshal User_store (thing_Data th) User_zero).
  generalize (json_Unmarshal Post_store (thing_Data th) new_Post).
  generalize (json_Unmarshal Subreddit_store (thing_Data th) new_Subreddit).
  generalize (json_Unmarshal ModAction_store (thing_Data th) ModAction_zero).
  intros r6 r5 r4 r3 r2 r1.
  repeat
    match goal with
    | |- context [String.eqb (thing_Kind th) ?kind] =>
        destruct (String.eqb_spec (thing_Kind th) kind) as [Hkind | _];
        [ rewrite ?Hkind;
          repeat match goal with r : result _ |- _ => destruct r end;
          reflexivity | ]
    end.
  reflexivity.
Qed.

(** **** C3
    For every input that is a sequence of things, the classifier returns no
    error and fills each bucket with the records of the things of the
    bucket's kind whose data decodes, in the order of the input; a thing of a
    supported kind whose data decodes adds one record to one bucket, and any
    other thing adds nothing to any bucket. *)
Theorem things_UnmarshalJSON_classifies
  (b : json) (ths : list thing) (t : things) :
  json_Unmarshal thingSlice_store (Some b) [] = Ok ths ->
  things_UnmarshalJSON b t =
    ({| things_Comments := bucket kindComment Comment_store new_Comment ths;
        things_Mores := bucket kindMore More_store new_More ths;
        things_Users := bucket kindAccount User_store User_zero ths;
        things_Posts := bucket kindPost Post_store new_Post ths;
        things_Subreddits :=
          bucket kindSubreddit Subreddit_store new_Subreddit ths;
        things_ModActions :=
          bucket kindModAction ModAction_store ModAction_zero ths |}, None)
  /\ (forall th,
        (length (bucket kindComment Comment_store new_Comment [th])
         + length (bucket kindMore More_store new_More [th])
         + length (bucket kindAccount User_store User_zero [th])
         + length (bucket kindPost Post_store new_Post [th])
         + length (bucket kindSubreddit Subreddit_store new_Subreddit [th])
         + length (bucket kindModAction ModAction_store ModAction_zero [th]))%nat
        = if supported th then 1%nat else 0%nat)
  /\ (forall (T : Type) (kind : string) (st : store T) (zero : T)
        (before after : list thing),
        bucket kind st zero (before ++ after)
        = bucket kind st zero before ++ bucket kind st zero after).
Proof.
  intros Hths. split; [| split].
  - unfold things_UnmarshalJSON, things_UnmarshalJSON_with.
    rewrite Hths, things_loop_buckets. destruct t; reflexivity.
  - apply things_contribution.
  - intros. apply bucket_app.
Qed.

(** ** The shapes that decode *)

Lemma isOk_bind {A B : Type} (r : result A) (k : A -> result B) (ok : bool) :
  (forall a, isOk (k a) = ok) ->
  isOk (bind r k) = isOk r && ok.
Proof. intros Hk. destruct r as [a | e]; cbn; [apply Hk | reflexivity]. Qed.

Lemma isOk_field {T F : Type} (get : T -> F) (set : Setter get) (st : store F)
  (j : json) (dst : T) :
  isOk (field get st j dst) = isOk (st j (get dst)).
Proof. unfold field. rewrite isOk_bind with (ok := true); [apply andb_true_r | reflexivity]. Qed.

(** Whether a struct takes the members of an object is decided member by
    member, when what each field accepts does not depend on its content. *)
Lemma isOk_membersStore {T : Type} (tbl : fields T)
  (check : string -> json -> bool) (members : list (string * json)) :
  (forall name v dst,
      In (name, v) members ->
      isOk (match fieldNamed tbl name with
            | Some st => st v dst
            | None => Ok dst
            end) = check (foldName name) v) ->
  forall dst, isOk (membersStore tbl members dst) = membersShape check members.
Proof.
  induction members as [| [name v] rest IH]; intros Hcheck dst; [reflexivity |].
  cbn [membersStore membersShape forallb fst snd].
  specialize (IH (fun n w d Hin => Hcheck n w d (or_intror Hin))).
  specialize (Hcheck name v dst (or_introl eq_refl)).
  rewrite <- Hcheck. fold (membersShape check rest).
  destruct (fieldNamed tbl name) as [st |].
  - destruct (st v dst) as [dst' | e]; cbn; [apply IH | reflexivity].
  - cbn. apply IH.
Qed.

Lemma isOk_stringStore (j : json) (dst : string) :
  isOk (stringStore j dst) = stringOrNull j.
Proof. destruct j; reflexivity. Qed.

Lemma isOk_thing_store (j : json) (dst : thing) :
  isOk (thing_store j dst) = thingShape j.
Proof.
  destruct j; try reflexivity. cbn [thing_store structStore thingShape].
  apply isOk_membersStore. intros name v d _.
  cbn [thing_fields fieldNamed].
  rewrite (String.eqb_sym "kind"), (String.eqb_sym "data").
  destruct (String.eqb (foldName name) "kind").
  - rewrite isOk_field. apply isOk_stringStore.
  - destruct (String.eqb (foldName name) "data"); reflexivity.
Qed.

Lemma isOk_thingSlice_store (j : json) (dst : list thing) :
  isOk (thingSlice_store j dst) = childrenShape j.
Proof.
  destruct j; try reflexivity.
  cbn [thingSlice_store sliceStore childrenShape].
  induction elems as [| e rest IH]; [reflexivity |].
  cbn [elemsStore forallb]. rewrite <- isOk_thing_store with (dst := new_thing).
  destruct (thing_store e new_thing); [| reflexivity].
  cbn [bind andb]. rewrite <- IH.
  now destruct (elemsStore new_thing thing_store rest).
Qed.

Section AnyCommentDecoder.
Variable decodeComment : store Comment.

(** The classifier fails exactly on what is not a sequence of things. *)
Lemma things_UnmarshalJSON_error (b : json) (t : things) :
  snd (things_UnmarshalJSON_with decodeComment b t)
  = if childrenShape b then None else Some DecodeError.
Proof.
  unfold things_UnmarshalJSON_with, json_Unmarshal.
  rewrite <- (isOk_thingSlice_store b []).
  destruct (thingSlice_store b []) as [ths | []]; reflexivity.
Qed.

Lemma isOk_listingData_store (j : json) (dst : listingData) :
  isOk (structStore (listingData_fields decodeComment) j dst) = dataShape j.
Proof.
  destruct j; try reflexivity. cbn [structStore dataShape].
  apply isOk_membersStore. intros name v d _.
  cbn [listingData_fields fieldNamed].
  rewrite (String.eqb_sym "children"), (String.eqb_sym "after"),
    (String.eqb_sym "before").
  destruct (String.eqb (foldName name) "children").
  { rewrite isOk_field. unfold viaUnmarshaler.
    pose proof (things_UnmarshalJSON_error v (listingData_Things d)) as Herr.
    destruct (things_UnmarshalJSON_with decodeComment v (listingData_Things d))
      as [t' [e |]]; cbn [snd] in Herr;
      destruct (childrenShape v); congruence || reflexivity. }
  destruct (String.eqb (foldName name) "after").
  { rewrite isOk_field. apply isOk_stringStore. }
  destruct (String.eqb (foldName name) "before").
  { rewrite isOk_field. apply isOk_stringStore. }
  reflexivity.
Qed.

Lemma isOk_listingRoot_store (j : json) (dst : listingRoot) :
  isOk (listingRoot_store decodeComment j dst) = listingShape j.
Proof.
  destruct j; try reflexivity.
  cbn [listingRoot_store structStore listingShape].
  apply isOk_membersStore. intros name v d _.
  cbn [listingRoot_fields fieldNamed].
  rewrite (String.eqb_sym "data").
  destruct (String.eqb (foldName name) "data"); [| reflexivity].
  rewrite isOk_field. apply isOk_listingData_store.
Qed.

(** The listing decoder fails exactly outside [listingShape], and then
    leaves its receiver as it was. *)
Lemma listing_UnmarshalJSON_by_shape (b : json) (l : listing) :
  listing_UnmarshalJSON_with decodeComment b l =
    if listingShape b
    then (fst (listing_UnmarshalJSON_with decodeComment b l), None)
    else (l, Some DecodeError).
Proof.
  unfold listing_UnmarshalJSON_with, json_Unmarshal.
  rewrite <- (isOk_listingRoot_store b new_listingRoot).
  destruct (listingRoot_store decodeComment b new_listingRoot) as [root | []];
    reflexivity.
Qed.

(** An object without a [data] member decodes to the zero listing. *)
Lemma listing_UnmarshalJSON_without_data (members : list (string * json))
  (l : listing) :
  forallb (fun m => negb (String.eqb (foldName (fst m)) "data")) members = true ->
  listing_UnmarshalJSON_with decodeComment (JObject members) l
  = (new_listing, None).
Proof.
  intros Hno. unfold listing_UnmarshalJSON_with, json_Unmarshal.
  cbn [listingRoot_store structStore].
  assert (Hskip : forall dst,
             membersStore (listingRoot_fields decodeComment) members dst
             = Ok dst).
  { induction members as [| [name v] rest IH]; intros dst; [reflexivity |].
    cbn [forallb fst] in Hno. apply andb_true_iff in Hno as [Hname Hrest].
    cbn [membersStore listingRoot_fields fieldNamed].
    rewrite String.eqb_sym. apply negb_true_iff in Hname. rewrite Hname.
    now apply IH. }
  rewrite Hskip. now destruct l.
Qed.
End AnyCommentDecoder.

(** **** C5
    As amended: the listing decoder returns a decode error, and leaves its
    receiver as it was, exactly when the input is outside [listingShape]: it
    is neither [null] nor an object, or a [data] member is neither [null] nor
    an object, or in it an [after] or [before] member is neither [null] nor a
    string, or a [children] member is neither [null] nor an array, or a child
    is neither [null] nor an object, or the [kind] member of a child is
    neither [null] nor a string.  A missing [data] member is no error: the
    outcome is the zero listing.  The kinds of the children and what their
    data holds never make the decoder fail. *)
Theorem listing_UnmarshalJSON_fails_outside_shape (b : json) (l : listing) :
  listing_UnmarshalJSON b l =
    (if listingShape b
     then (fst (listing_UnmarshalJSON b l), None)
     else (l, Some DecodeError))
  /\ (forall members : list (string * json),
        forallb (fun m => negb (String.eqb (foldName (fst m)) "data")) members
        = true ->
        listing_UnmarshalJSON (JObject members) l = (new_listing, None))
  /\ listing_UnmarshalJSON JNull l = (new_listing, None).
Proof.
  split; [| split].
  - apply listing_UnmarshalJSON_by_shape.
  - intros members. apply listing_UnmarshalJSON_without_data.
  - destruct l; reflexivity.
Qed.

(** ** The aggregate *)

(** What the aggregate decoder does, by the shape of its input. *)
Lemma PostAndComments_UnmarshalJSON_by_shape (data : json)
  (pc : PostAndComments) :
  PostAndComments_UnmarshalJSON data pc =
    if pairShape data then
      match things_Posts (listing_things (listingAt 0 data)) with
      | [] => Panicked IndexOutOfRange
      | post :: _ =>
          Returned
            ({| PostAndComments_Post := Some post;
                PostAndComments_Comments :=
                  things_Comments (listing_things (listingAt 1 data));
                PostAndComments_More :=
                  match things_Mores (listing_things (listingAt 1 data)) with
                  | m :: _ => Some m
                  | [] => PostAndComments_More pc
                  end |}, None)
      end
    else Returned (pc, Some DecodeError).
Proof.
  unfold PostAndComments_UnmarshalJSON, PostAndComments_UnmarshalJSON_with,
    json_Unmarshal, listingPair_store_with, listing_store_with, viaUnmarshaler,
    listingAt, pairShape.
  destruct data as [| | | | elems |]; try reflexivity.
  destruct elems as [| e0 [| e1 rest]]; cbn [fst snd firstn forallb nth_error].
  - reflexivity.
  - unfold listing_UnmarshalJSON.
    rewrite (listing_UnmarshalJSON_by_shape Comment_store e0 new_listing).
    fold listing_UnmarshalJSON.
    destruct (listingShape e0); cbn [bind fst snd andb]; [| reflexivity].
    destruct (things_Posts
                (listing_things (fst (listing_UnmarshalJSON e0 new_listing))));
      [reflexivity |].
    destruct pc; reflexivity.
  - unfold listing_UnmarshalJSON.
    rewrite (listing_UnmarshalJSON_by_shape Comment_store e0 new_listing).
    rewrite (listing_UnmarshalJSON_by_shape Comment_store e1 new_listing).
    fold listing_UnmarshalJSON.
    destruct (listingShape e0); cbn [bind fst snd andb]; [| reflexivity].
    destruct (listingShape e1); cbn [bind fst snd andb]; [| reflexivity].
    destruct (things_Posts
                (listing_things (fst (listing_UnmarshalJSON e0 new_listing))));
      [reflexivity |].
    destruct (things_Mores
                (listing_things (fst (listing_UnmarshalJSON e1 new_listing))));
      destruct pc; reflexivity.
Qed.

(** An accepted input whose first listing holds no post makes the decoder
    panic at [l[0].Posts[0]]. *)
Lemma PostAndComments_UnmarshalJSON_without_post (data : json)
  (pc : PostAndComments) :
  pairShape data = true ->
  things_Posts (listing_things (listingAt 0 data)) = [] ->
  PostAndComments_UnmarshalJSON data pc = Panicked IndexOutOfRange.
Proof.
  intros Hshape Hnone.
  now rewrite PostAndComments_UnmarshalJSON_by_shape, Hshape, Hnone.
Qed.

(** **** C1
    As amended: the aggregate decoder returns a decode error, and leaves its
    receiver as it was, exactly when the input is outside [pairShape]: it is
    neither [null] nor an array, or one of its first two elements, as far as
    they exist, has not the shape of a listing.  The length of the array is
    not checked: a place the array does not reach counts as the zero listing,
    and elements after the second are skipped.  With an accepted input whose
    first listing holds a post, decoding succeeds: the post is the first one
    of the first listing, the comments are those of the second listing, and
    the placeholder is the first of the second listing, when it has one. *)
Theorem PostAndComments_UnmarshalJSON_errors_outside_shape
  (data : json) (pc : PostAndComments) :
  (pairShape data = false ->
   PostAndComments_UnmarshalJSON data pc = Returned (pc, Some DecodeError))
  /\ (forall pc' e,
        PostAndComments_UnmarshalJSON data pc = Returned (pc', Some e) ->
        pairShape data = false /\ pc' = pc)
  /\ (forall post posts,
        pairShape data = true ->
        things_Posts (listing_things (listingAt 0 data)) = post :: posts ->
        PostAndComments_UnmarshalJSON data pc =
          Returned
            ({| PostAndComments_Post := Some post;
                PostAndComments_Comments :=
                  things_Comments (listing_things (listingAt 1 data));
                PostAndComments_More :=
                  match things_Mores (listing_things (listingAt 1 data)) with
                  | m :: _ => Some m
                  | [] => PostAndComments_More pc
                  end |}, None)).
Proof.
  rewrite PostAndComments_UnmarshalJSON_by_shape.
  split; [| split].
  - intros ->. reflexivity.
  - intros pc' e. destruct (pairShape data).
    + destruct (things_Posts (listing_things (listingAt 0 data)));
        discriminate.
    + intros [= <- _]. now split.
  - intros post posts -> ->. reflexivity.
Qed.

(** ** Encoding and decoding again *)

(** The encoder of a comment goes through [Replies.MarshalJSON]. *)
Lemma json_Marshal_Comment_unfold (c : Comment) :
  json_Marshal_Comment c =
    (created <- omitemptyTimestamp "created_utc" (Comment_Created c) ;;
     edited <- omitemptyTimestamp "edited" (Comment_Edited c) ;;
     replies <- Replies_MarshalJSON (Some (Comment_Replies c)) ;;
     Ok (Comment_object c created edited replies)).
Proof.
  destruct c as [? ? ? ? ? ? ? ? ? ? ? ? ? ? ? ? ? ? ? ? ? ? ? ? ? ? ? ? ?
                   [[| x rest] more]]; reflexivity.
Qed.

(** A struct skips the members that name none of its fields. *)
Lemma membersStore_skips {T : Type} (tbl : fields T)
  (members : list (string * json)) (dst : T) :
  Forall (fun m => fieldNamed tbl (fst m) = None) members ->
  membersStore tbl members dst = Ok dst.
Proof.
  induction 1 as [| [name v] rest Hname _ IH]; [reflexivity |].
  cbn [membersStore]. cbn [fst] in Hname. now rewrite Hname.
Qed.

Lemma omitemptyString_no_envelope (name s : string) :
  fieldNamed thing_fields name = None ->
  Forall (fun m => fieldNamed thing_fields (fst m) = None)
    (omitemptyString name s).
Proof.
  intros Hname. unfold omitemptyString.
  destruct (String.eqb s ""); repeat constructor. exact Hname.
Qed.

Lemma omitemptyTimestamp_no_envelope (name : string) (t : option Timestamp)
  (members : list (string * json)) :
  fieldNamed thing_fields name = None ->
  omitemptyTimestamp name t = Ok members ->
  Forall (fun m => fieldNamed thing_fields (fst m) = None) members.
Proof.
  intros Hname. unfold omitemptyTimestamp.
  destruct t as [ts |].
  - destruct (Timestamp_Marshal ts) as [j | e]; cbn [bind]; [| discriminate].
    intros [= <-]. repeat constructor. exact Hname.
  - intros [= <-]. constructor.
Qed.

(** The object of a comment has no member named [kind] or [data]: as a
    thing it has no kind and no data. *)
Lemma json_Marshal_Comment_is_no_thing (c : Comment) (j : json) :
  json_Marshal_Comment c = Ok j -> thing_store j new_thing = Ok new_thing.
Proof.
  rewrite json_Marshal_Comment_unfold.
  destruct (omitemptyTimestamp "created_utc" (Comment_Created c))
    as [created | e] eqn:Hcreated; cbn [bind]; [| discriminate].
  destruct (omitemptyTimestamp "edited" (Comment_Edited c))
    as [edited | e] eqn:Hedited; cbn [bind]; [| discriminate].
  destruct (Replies_MarshalJSON (Some (Comment_Replies c))) as [replies | e];
    cbn [bind]; [| discriminate].
  intros [= <-]. unfold Comment_object.
  cbn [thing_store structStore]. apply membersStore_skips.
  apply omitemptyTimestamp_no_envelope in Hcreated; [| reflexivity].
  apply omitemptyTimestamp_no_envelope in Hedited; [| reflexivity].
  repeat (apply Forall_app; split);
    try (apply omitemptyString_no_envelope; reflexivity);
    try assumption.
  - repeat constructor.
  - destruct (Comment_PostNumComments c); repeat constructor.
  - repeat constructor.
Qed.

Lemma json_Marshal_Comments_are_no_things (s : list Comment) (js : list json) :
  json_Marshal_Comments s = Ok js ->
  length js = length s
  /\ elemsStore new_thing thing_store js = Ok (repeat new_thing (length js)).
Proof.
  revert js. induction s as [| x rest IH]; intros js.
  - intros [= <-]. now split.
  - cbn [json_Marshal_Comments].
    destruct (json_Marshal_Comment x) as [j | e] eqn:Hx; cbn [bind];
      [| discriminate].
    destruct (json_Marshal_Comments rest) as [js' | e]; cbn [bind];
      [| discriminate].
    intros [= <-]. destruct (IH js' eq_refl) as [Hlen Hstore].
    split; [cbn; now rewrite Hlen |].
    cbn [elemsStore length repeat].
    rewrite (json_Marshal_Comment_is_no_thing _ Hx). cbn [bind].
    now rewrite Hstore.
Qed.

(** Things without a kind go to no bucket. *)
Lemma things_loop_no_kind (decodeComment : store Comment) (n : nat)
  (t : things) :
  fold_left (things_case decodeComment) (repeat new_thing n) t = t.
Proof. induction n as [| n IH]; [reflexivity |]. cbn [repeat fold_left]. exact IH. Qed.

(** The listing decoder on an envelope around given children: its things
    are what the classifier makes of the children. *)
Lemma listing_UnmarshalJSON_of_children (decodeComment : store Comment)
  (children : json) (l : listing) :
  listing_UnmarshalJSON_with decodeComment (listingOf children) l =
    match things_UnmarshalJSON_with decodeComment children new_things with
    | (t, None) =>
        ({| listing_things := t; listing_after := "";
            listing_before := "" |}, None)
    | (_, Some err) => (l, Some err)
    end.
Proof.
  unfold listing_UnmarshalJSON_with, listingOf.
  lazy -[things_UnmarshalJSON_with new_things].
  destruct (things_UnmarshalJSON_with decodeComment children new_things)
    as [t [err |]]; [reflexivity |].
  destruct l; reflexivity.
Qed.

(** **** C4
    As amended: a reply container with N > 0 comments encodes (when none of
    its timestamps fails to encode) as an array of N objects, one per
    comment, that are not things: they have no [kind] and no [data].
    Decoding that array as the children of a listing succeeds and gives empty
    buckets, so a container decoded from such a listing has no comments, and
    no placeholder when it was fresh; the array itself is not a reply field
    and decoding it as one fails.  The comments are not recovered, and the
    placeholder is lost. *)
Theorem Replies_encoding_is_not_decoded_back
  (r : Replies) (j : json) (t : things) (r0 : Replies) :
  Replies_Comments r <> [] ->
  Replies_MarshalJSON (Some r) = Ok j ->
  (exists js, j = JArray js /\ length js = length (Replies_Comments r))
  /\ things_UnmarshalJSON j t = (new_things, None)
  /\ Replies_UnmarshalJSON (listingOf j) r0
     = (r0 <| Replies_Comments := [] |>, None)
  /\ Replies_UnmarshalJSON (listingOf j) new_Replies = (new_Replies, None)
  /\ Replies_UnmarshalJSON j r0 = (r0, Some DecodeError).
Proof.
  intros Hsome. unfold Replies_MarshalJSON.
  destruct (Replies_Comments r) as [| x rest] eqn:Hcomments; [contradiction |].
  cbn [length Nat.eqb].
  destruct (json_Marshal_Comments (x :: rest)) as [js | e] eqn:Hjs;
    cbn [bind]; [| discriminate].
  intros [= <-].
  destruct (json_Marshal_Comments_are_no_things _ Hjs) as [Hlen Hstore].
  assert (Hthings : forall t', things_UnmarshalJSON (JArray js) t'
                               = (new_things, None)).
  { intros t'. unfold things_UnmarshalJSON, things_UnmarshalJSON_with.
    cbn [json_Unmarshal thingSlice_store sliceStore].
    rewrite Hstore, things_loop_no_kind. now destruct t'. }
  assert (Hreplies : forall r', Replies_UnmarshalJSON (listingOf (JArray js)) r'
                                = (r' <| Replies_Comments := [] |>, None)).
  { intros r'. unfold Replies_UnmarshalJSON, Replies_UnmarshalJSON_with.
    unfold listingOf at 1. unfold json_Unmarshal, listing_store_with,
      viaUnmarshaler.
    rewrite listing_UnmarshalJSON_of_children.
    fold things_UnmarshalJSON. rewrite Hthings. reflexivity. }
  split; [| split; [| split; [| split]]].
  - exists js. split; [reflexivity | exact Hlen].
  - apply Hthings.
  - apply Hreplies.
  - apply Hreplies.
  - reflexivity.
Qed.

(** ** The comment decoder is well defined

    [Comment_store] cuts the recursion of the decoders at the depth of the
    value.  The lemmas below show that a decoder only consults
    [decodeComment] at values that lie deeper in its input, so that the cut
    is never reached and [Comment_store] satisfies the equation the Go code
    runs by. *)

Lemma depth_elem (e : json) (elems : list json) :
  In e elems -> depth e < depth (JArray elems).
Proof.
  cbn [depth]. induction elems as [| x rest IH]; [contradiction |].
  cbn [fold_right]. intros [-> | Hin]; [lia |].
  specialize (IH Hin). lia.
Qed.

Lemma depth_member (name : string) (v : json)
  (members : list (string * json)) :
  In (name, v) members -> depth v < depth (JObject members).
Proof.
  cbn [depth]. induction members as [| m rest IH]; [contradiction |].
  cbn [fold_right]. intros [-> | Hin]; [cbn [snd]; lia |].
  specialize (IH Hin). lia.
Qed.

(** Two tables take the members of an object alike when their fields take
    each member alike. *)
Lemma membersStore_ext {T : Type} (tbl1 tbl2 : fields T)
  (members : list (string * json)) :
  (forall name v dst,
      In (name, v) members ->
      match fieldNamed tbl1 name, fieldNamed tbl2 name with
      | Some st1, Some st2 => st1 v dst = st2 v dst
      | None, None => True
      | _, _ => False
      end) ->
  forall dst, membersStore tbl1 members dst = membersStore tbl2 members dst.
Proof.
  induction members as [| [name v] rest IH]; intros Hsame dst; [reflexivity |].
  cbn [membersStore].
  specialize (IH (fun n w d Hin => Hsame n w d (or_intror Hin))).
  specialize (Hsame name v dst (or_introl eq_refl)).
  destruct (fieldNamed tbl1 name) as [st1 |], (fieldNamed tbl2 name) as [st2 |];
    try contradiction; [| apply IH].
  rewrite Hsame. destruct (st2 v dst); cbn [bind]; [apply IH | reflexivity].
Qed.

(** The data of a decoded thing lies inside the value it was decoded from. *)
Lemma thing_members_data_inside (k : nat) (members : list (string * json)) :
  (forall name v, In (name, v) members -> depth v < k) ->
  forall dst th,
    membersStore thing_fields members dst = Ok th ->
    (forall v, thing_Data dst = Some v -> depth v < k) ->
    forall v, thing_Data th = Some v -> depth v < k.
Proof.
  induction members as [| [name w] rest IH]; intros Hin dst th.
  - intros [= <-]. auto.
  - cbn [membersStore thing_fields fieldNamed].
    specialize (IH (fun n x H => Hin n x (or_intror H))).
    pose proof (Hin name w (or_introl eq_refl)) as Hw.
    destruct (String.eqb "kind" (foldName name)).
    + unfold field at 1.
      destruct (stringStore w (thing_Kind dst)) as [s |]; cbn [bind];
        [| discriminate].
      intros Hrest Hdst. apply (IH _ _ Hrest). now destruct dst.
    + destruct (String.eqb "data" (foldName name)).
      * unfold field at 1, rawStore. cbn [bind].
        intros Hrest _. apply (IH _ _ Hrest).
        destruct dst; cbn. intros v [= <-]. exact Hw.
      * intros Hrest Hdst. now apply (IH _ _ Hrest).
Qed.

Lemma thing_data_inside (e : json) (th : thing) (v : json) :
  thing_store e new_thing = Ok th ->
  thing_Data th = Some v ->
  depth v < depth e.
Proof.
  destruct e as [| | | | | members]; cbn [thing_store structStore];
    try discriminate.
  - intros [= <-]. discriminate.
  - intros Hth Hv.
    apply (@thing_members_data_inside (depth (JObject members)) members)
      with (dst := new_thing) (th := th);
      [ intros name w; apply depth_member | exact Hth | discriminate
      | exact Hv ].
Qed.

Lemma things_data_inside (elems : list json) (ths : list thing) :
  elemsStore new_thing thing_store elems = Ok ths ->
  Forall
    (fun th =>
       forall v, thing_Data th = Some v -> depth v < depth (JArray elems))
    ths.
Proof.
  revert ths. induction elems as [| e rest IH]; intros ths.
  - intros [= <-]. constructor.
  - cbn [elemsStore].
    destruct (thing_store e new_thing) as [th |] eqn:Hth; cbn [bind];
      [| discriminate].
    destruct (elemsStore new_thing thing_store rest) as [ths' |]; cbn [bind];
      [| discriminate].
    intros [= <-]. constructor.
    + intros v Hv. pose proof (thing_data_inside _ Hth Hv) as Hlt.
      pose proof (depth_elem e (e :: rest) (or_introl eq_refl)). lia.
    + specialize (IH ths' eq_refl).
      apply Forall_impl with (2 := IH). cbn beta. intros th' Hin v Hv.
      specialize (Hin v Hv). cbn [depth fold_right] in *. lia.
Qed.

Section TwoCommentDecoders.
Variables decode1 decode2 : store Comment.

Lemma things_UnmarshalJSON_ext (b : json) (t : things) :
  (forall v dst, depth v < depth b -> decode1 v dst = decode2 v dst) ->
  things_UnmarshalJSON_with decode1 b t = things_UnmarshalJSON_with decode2 b t.
Proof.
  intros Hsame. unfold things_UnmarshalJSON_with, json_Unmarshal.
  destruct b as [| | | | elems |]; try reflexivity.
  cbn [thingSlice_store sliceStore].
  destruct (elemsStore new_thing thing_store elems) as [ths |] eqn:Hths;
    [| reflexivity].
  apply things_data_inside in Hths. f_equal.
  generalize (things_init t). clear t.
  induction Hths as [| th rest Hth _ IH]; intros t; [reflexivity |].
  cbn [fold_left]. rewrite <- IH. f_equal.
  unfold things_case, json_Unmarshal.
  destruct (thing_Data th) as [v |]; [| reflexivity].
  now rewrite (Hsame v new_Comment (Hth v eq_refl)).
Qed.

Lemma listingData_store_ext (j : json) (dst : listingData) :
  (forall v d, depth v < depth j -> decode1 v d = decode2 v d) ->
  structStore (listingData_fields decode1) j dst
  = structStore (listingData_fields decode2) j dst.
Proof.
  intros Hsame. destruct j as [| | | | | members]; try reflexivity.
  cbn [structStore]. apply membersStore_ext. intros name v d Hin.
  cbn [listingData_fields fieldNamed].
  destruct (String.eqb "children" (foldName name)).
  { unfold field, viaUnmarshaler. rewrite things_UnmarshalJSON_ext; [reflexivity |].
    intros w d' Hw. apply Hsame.
    pose proof (depth_member _ _ _ Hin). lia. }
  destruct (String.eqb "after" (foldName name)); [reflexivity |].
  destruct (String.eqb "before" (foldName name)); [reflexivity | exact I].
Qed.

Lemma listing_UnmarshalJSON_ext (b : json) (l : listing) :
  (forall v dst, depth v < depth b -> decode1 v dst = decode2 v dst) ->
  listing_UnmarshalJSON_with decode1 b l = listing_UnmarshalJSON_with decode2 b l.
Proof.
  intros Hsame. unfold listing_UnmarshalJSON_with, json_Unmarshal.
  replace (listingRoot_store decode1 b new_listingRoot)
    with (listingRoot_store decode2 b new_listingRoot); [reflexivity |].
  destruct b as [| | | | | members]; try reflexivity.
  cbn [listingRoot_store structStore]. symmetry.
  apply membersStore_ext. intros name v d Hin.
  cbn [listingRoot_fields fieldNamed].
  destruct (String.eqb "data" (foldName name)); [| exact I].
  unfold field. rewrite listingData_store_ext; [reflexivity |].
  intros w d' Hw. apply Hsame.
  pose proof (depth_member _ _ _ Hin). lia.
Qed.

Lemma Replies_UnmarshalJSON_ext (data : json) (r : Replies) :
  (forall v dst, depth v < depth data -> decode1 v dst = decode2 v dst) ->
  Replies_UnmarshalJSON_with decode1 data r
  = Replies_UnmarshalJSON_with decode2 data r.
Proof.
  intros Hsame.
  unfold Replies_UnmarshalJSON_with, json_Unmarshal, listing_store_with,
    viaUnmarshaler.
  now rewrite (listing_UnmarshalJSON_ext data new_listing Hsame).
Qed.

Lemma Comment_store_ext (j : json) (dst : Comment) :
  (forall v d, depth v < depth j -> decode1 v d = decode2 v d) ->
  Comment_store_with decode1 j dst = Comment_store_with decode2 j dst.
Proof.
  intros Hsame. destruct j as [| | | | | members]; try reflexivity.
  cbn [Comment_store_with structStore]. apply membersStore_ext.
  intros name v d Hin. cbn [Comment_fields_with fieldNamed].
  repeat
    match goal with
    | |- context [if String.eqb ?n (foldName name) then _ else _] =>
        destruct (String.eqb n (foldName name)); [try reflexivity |]
    end; [| exact I].
  unfold field, viaUnmarshaler. rewrite Replies_UnmarshalJSON_ext; [reflexivity |].
  intros w d' Hw. apply Hsame.
  pose proof (depth_member _ _ _ Hin). lia.
Qed.
End TwoCommentDecoders.

(** Beyond the depth of the value, more unfoldings change nothing. *)
Lemma Comment_store_upto_enough (n m : nat) (j : json) (dst : Comment) :
  depth j < n -> depth j < m ->
  Comment_store_upto n j dst = Comment_store_upto m j dst.
Proof.
  revert m j dst. induction n as [| n IH]; intros m j dst Hn Hm; [lia |].
  destruct m as [| m]; [lia |].
  cbn [Comment_store_upto]. apply Comment_store_ext.
  intros v d Hv. apply IH; lia.
Qed.

(** The comment decoder decodes a comment as a struct whose replies are
    decoded by [Replies.UnmarshalJSON], which decodes the comments among them
    with the comment decoder. *)
Lemma Comment_store_unfold (j : json) (dst : Comment) :
  Comment_store j dst = Comment_store_with Comment_store j dst.
Proof.
  unfold Comment_store at 1. cbn [Comment_store_upto].
  apply Comment_store_ext. intros v d Hv.
  unfold Comment_store. apply Comment_store_upto_enough; lia.
Qed.
End Properties.

(** * Further properties *)

Section FurtherProperties.
Context {collaborators : Collaborators}.

(** ** Placeholders that find no parent *)

Lemma Comment_addMoreToReplies_unmatched (more : More) (c : Comment) :
  ~ In (More_ParentID more) (Comment_fullIDs c) ->
  Comment_addMoreToReplies c more = c.
Proof.
  induction c as [c IH] using Comment_tree_ind. intros Hno.
  rewrite Comment_fullIDs_unfold in Hno.
  rewrite Comment_addMoreToReplies_unfold.
  destruct (String.eqb_spec (Comment_FullID c) (More_ParentID more))
    as [Heq | _].
  - exfalso. apply Hno. left. exact Heq.
  - rewrite map_fixed; [apply set_replies_same |].
    rewrite Forall_forall in IH |- *. intros reply Hin.
    apply IH; [exact Hin |].
    intros Hp. apply Hno. right. apply in_flat_map. now exists reply.
Qed.

Lemma Comments_addMore_unmatched (more : More) (s : list Comment) :
  ~ In (More_ParentID more) (flat_map Comment_fullIDs s) ->
  map (fun reply => Comment_addMoreToReplies reply more) s = s.
Proof.
  intros Hno. apply map_fixed. rewrite Forall_forall. intros reply Hin.
  apply Comment_addMoreToReplies_unmatched.
  intros Hp. apply Hno. apply in_flat_map. now exists reply.
Qed.

(** **** X1
    A placeholder whose [ParentID] is the fullID of no node of the tree is
    dropped: [addMoreToTree] returns and leaves the aggregate as it was, and
    [addMoreToReplies] leaves the comment tree as it was. *)
Theorem attach_placeholder_without_parent
  (pc : PostAndComments) (post : Post) (root : Comment) (more : More) :
  PostAndComments_Post pc = Some post ->
  ~ In (More_ParentID more) (PostAndComments_fullIDs pc) ->
  ~ In (More_ParentID more) (Comment_fullIDs root) ->
  PostAndComments_addMoreToTree pc more = Returned pc
  /\ Comment_addMoreToReplies root more = root.
Proof.
  intros Hpost Hpc Hroot. split.
  - unfold PostAndComments_addMoreToTree, PostAndComments_fullIDs in *.
    rewrite Hpost in *. cbn [app] in Hpc.
    destruct (String.eqb_spec (Post_FullID post) (More_ParentID more))
      as [Heq | _].
    + exfalso. apply Hpc. left. exact Heq.
    + rewrite Comments_addMore_unmatched.
      * destruct pc; reflexivity.
      * intros Hin. apply Hpc. right. exact Hin.
  - now apply Comment_addMoreToReplies_unmatched.
Qed.

(** ** What attaching keeps *)

Lemma Comment_fullIDs_addMore (more : More) (c : Comment) :
  Comment_fullIDs (Comment_addMoreToReplies c more) = Comment_fullIDs c.
Proof.
  induction c as [c IH] using Comment_tree_ind.
  rewrite Comment_addMoreToReplies_unfold.
  destruct (String.eqb (Comment_FullID c) (More_ParentID more)).
  - destruct c as [? ? ? ? ? ? ? ? ? ? ? ? ? ? ? ? ? ? ? ? ? ? ? ? ? ? ? ? ? []].
    reflexivity.
  - rewrite (Comment_fullIDs_unfold c), Comment_fullIDs_unfold.
    rewrite Comment_FullID_set_replies, Replies_Comments_set_replies.
    unfold constant. f_equal.
    induction IH as [| x rest Hx _ IHrest]; [reflexivity |].
    cbn [map flat_map]. now rewrite Hx, IHrest.
Qed.

Lemma Comments_fullIDs_addMore (more : More) (s : list Comment) :
  flat_map Comment_fullIDs
    (map (fun reply => Comment_addMoreToReplies reply more) s)
  = flat_map Comment_fullIDs s.
Proof.
  induction s as [| x rest IH]; [reflexivity |].
  cbn [map flat_map]. now rewrite Comment_fullIDs_addMore, IH.
Qed.

(** **** X2
    Attaching a placeholder adds no node and removes none: the fullIDs of
    the tree, in document order, are the same before and after, whether or
    not the placeholder found its parent. *)
Theorem attach_placeholder_keeps_the_nodes
  (pc : PostAndComments) (root : Comment) (more : More) :
  Comment_fullIDs (Comment_addMoreToReplies root more) = Comment_fullIDs root
  /\ (forall pc',
        PostAndComments_addMoreToTree pc more = Returned pc' ->
        PostAndComments_fullIDs pc' = PostAndComments_fullIDs pc
        /\ PostAndComments_Post pc' = PostAndComments_Post pc).
Proof.
  split; [apply Comment_fullIDs_addMore |].
  intros pc'. unfold PostAndComments_addMoreToTree, PostAndComments_fullIDs.
  destruct pc as [[post |] comments slot];
    cbn -[flat_map map Comment_fullIDs Comment_addMoreToReplies];
    [| discriminate].
  destruct (String.eqb (Post_FullID post) (More_ParentID more));
    intros [= <-];
    cbn -[flat_map map Comment_fullIDs Comment_addMoreToReplies];
    unfold constant; now rewrite Comments_fullIDs_addMore.
Qed.

(** ** Where a comment is attached *)

Lemma Comment_find_addComment (comment c : Comment) :
  Comment_find (Comment_ParentID comment)
    (Comment_addCommentToReplies c comment)
  = option_map (withReply comment)
      (Comment_find (Comment_ParentID comment) c).
Proof.
  induction c as [c IH] using Comment_tree_ind.
  rewrite Comment_addCommentToReplies_unfold, (Comment_find_unfold _ c).
  destruct (String.eqb (Comment_FullID c) (Comment_ParentID comment)) eqn:Hid.
  - rewrite Comment_find_unfold, Comment_FullID_set_replies, Hid. reflexivity.
  - rewrite Comment_find_unfold, Comment_FullID_set_replies, Hid.
    rewrite Replies_Comments_set_replies. unfold constant.
    induction IH as [| x rest Hx _ IHrest]; [reflexivity |].
    cbn [map Comments_find]. rewrite Hx.
    destruct (Comment_find (Comment_ParentID comment) x); [reflexivity |].
    exact IHrest.
Qed.

Lemma Comments_find_addComment (comment : Comment) (s : list Comment) :
  Comments_find (Comment_ParentID comment)
    (map (fun reply => Comment_addCommentToReplies reply comment) s)
  = option_map (withReply comment)
      (Comments_find (Comment_ParentID comment) s).
Proof.
  induction s as [| x rest IH]; [reflexivity |].
  cbn [map Comments_find]. rewrite Comment_find_addComment.
  destruct (Comment_find (Comment_ParentID comment) x); [reflexivity |].
  exact IH.
Qed.

(** **** X3
    A comment whose parent is in the tree is attached to it: after
    [addCommentToReplies], the first node (in document order) with the
    comment's [ParentID] is the node it was before with the comment added at
    the end of its replies.  For an aggregate, a comment whose parent is the
    post goes to the end of the top-level comments, and otherwise the same
    holds among the top-level comments. *)
Theorem attach_comment_under_its_parent
  (pc : PostAndComments) (post : Post) (root comment n : Comment) :
  PostAndComments_Post pc = Some post ->
  Comment_find (Comment_ParentID comment) root = Some n ->
  Comment_find (Comment_ParentID comment)
    (Comment_addCommentToReplies root comment)
  = Some (withReply comment n)
  /\ exists pc',
       PostAndComments_addCommentToTree pc comment = Returned pc'
       /\ PostAndComments_Post pc' = Some post
       /\ PostAndComments_More pc' = PostAndComments_More pc
       /\ (if String.eqb (Post_FullID post) (Comment_ParentID comment)
           then PostAndComments_Comments pc'
                = PostAndComments_Comments pc ++ [comment]
           else Comments_find (Comment_ParentID comment)
                  (PostAndComments_Comments pc')
                = option_map (withReply comment)
                    (Comments_find (Comment_ParentID comment)
                       (PostAndComments_Comments pc))).
Proof.
  intros Hpost Hfind. split.
  - now rewrite Comment_find_addComment, Hfind.
  - unfold PostAndComments_addCommentToTree. rewrite Hpost.
    destruct pc as [pcpost comments slot]. cbn in Hpost. subst pcpost.
    destruct (String.eqb (Post_FullID post) (Comment_ParentID comment)).
    + eexists. split; [reflexivity |]. now repeat split.
    + eexists. split; [reflexivity |].
      split; [reflexivity |]. split; [reflexivity |].
      apply Comments_find_addComment.
Qed.

(** ** Attaching once *)

Lemma NoDup_app_apart {A : Type} (l1 l2 : list A) (a : A) :
  NoDup (l1 ++ l2) -> In a l1 -> ~ In a l2.
Proof.
  induction l1 as [| x rest IH]; [contradiction |].
  cbn [app]. intros Hnd [-> | Hin] H2.
  - apply NoDup_cons_iff in Hnd as [Hx _]. apply Hx, in_or_app. now right.
  - apply NoDup_cons_iff in Hnd as [_ Hnd]. now apply (IH Hnd Hin).
Qed.

Lemma Comment_fullIDs_withReply (comment c : Comment) :
  Comment_fullIDs (withReply comment c)
  = Comment_fullIDs c ++ Comment_fullIDs comment.
Proof.
  unfold withReply.
  rewrite Comment_fullIDs_unfold, (Comment_fullIDs_unfold c).
  rewrite Comment_FullID_set_replies, Replies_Comments_set_replies.
  rewrite flat_map_app. cbn [flat_map app]. now rewrite app_nil_r.
Qed.

(** With fullIDs that are unique, a comment whose parent is in the tree
    adds its own nodes to those of the tree, once. *)
Lemma Comment_fullIDs_addComment (comment c : Comment) :
  NoDup (Comment_fullIDs c) ->
  In (Comment_ParentID comment) (Comment_fullIDs c) ->
  Permutation
    (Comment_fullIDs (Comment_addCommentToReplies c comment))
    (Comment_fullIDs c ++ Comment_fullIDs comment).
Proof.
  induction c as [c IH] using Comment_tree_ind. intros Hnd Hin.
  rewrite Comment_addCommentToReplies_unfold.
  destruct (String.eqb_spec (Comment_FullID c) (Comment_ParentID comment))
    as [_ | Hne].
  - fold (withReply comment c). now rewrite Comment_fullIDs_withReply.
  - rewrite (Comment_fullIDs_unfold c) in Hnd, Hin |- *.
    rewrite Comment_fullIDs_unfold.
    rewrite Comment_FullID_set_replies, Replies_Comments_set_replies.
    unfold constant. cbn [app]. apply perm_skip.
    destruct Hin as [Heq | Hin]; [contradiction |].
    apply NoDup_cons_iff in Hnd as [_ Hnd].
    induction IH as [| x rest Hx _ IHrest]; [contradiction |].
    cbn [map flat_map] in *.
    pose proof (NoDup_app_remove_r _ _ Hnd) as Hndx.
    pose proof (NoDup_app_remove_l _ _ Hnd) as Hndrest.
    apply in_app_or in Hin. destruct Hin as [Hin | Hin].
    + rewrite Comments_addComment_unmatched
        by (intros H; exact (NoDup_app_apart _ _ _ Hnd Hin H)).
      rewrite (Hx Hndx Hin). rewrite <- !app_assoc.
      apply Permutation_app_head, Permutation_app_comm.
    + rewrite Comment_addCommentToReplies_unmatched
        by (intros H; exact (NoDup_app_apart _ _ _ Hnd H Hin)).
      rewrite (IHrest Hndrest Hin). now rewrite app_assoc.
Qed.

(** **** X4
    When the fullIDs of a comment tree are unique and the parent of a
    comment is in the tree, [addCommentToReplies] attaches the comment once:
    the fullIDs of the outcome are those of the tree and those of the
    comment, each as often as before.  If the comment's own fullIDs are new to
    the tree, the fullIDs of the outcome are unique again. *)
Theorem attach_comment_once (root comment : Comment) :
  NoDup (Comment_fullIDs root) ->
  In (Comment_ParentID comment) (Comment_fullIDs root) ->
  Permutation
    (Comment_fullIDs (Comment_addCommentToReplies root comment))
    (Comment_fullIDs root ++ Comment_fullIDs comment)
  /\ (NoDup (Comment_fullIDs root ++ Comment_fullIDs comment) ->
      NoDup (Comment_fullIDs (Comment_addCommentToReplies root comment))).
Proof.
  intros Hnd Hin.
  pose proof (Comment_fullIDs_addComment comment root Hnd Hin) as Hperm.
  split; [exact Hperm |].
  intros Hall. apply Permutation_sym in Hperm.
  exact (Permutation_NoDup Hperm Hall).
Qed.

(** ** The order of attaching *)

Lemma Comment_addComment_comm (a b c : Comment) :
  Comment_ParentID a <> Comment_ParentID b ->
  ~ In (Comment_ParentID b) (Comment_fullIDs a) ->
  ~ In (Comment_ParentID a) (Comment_fullIDs b) ->
  Comment_addCommentToReplies (Comment_addCommentToReplies c a) b
  = Comment_addCommentToReplies (Comment_addCommentToReplies c b) a.
Proof.
  intros Hdiff Hba Hab. induction c as [c IH] using Comment_tree_ind.
  rewrite (Comment_addCommentToReplies_unfold c a).
  rewrite (Comment_addCommentToReplies_unfold c b).
  destruct (String.eqb_spec (Comment_FullID c) (Comment_ParentID a))
    as [Ha | Ha];
    destruct (String.eqb_spec (Comment_FullID c) (Comment_ParentID b))
      as [Hb | Hb]; [congruence | | |].
  - rewrite !Comment_addCommentToReplies_unfold.
    rewrite !Comment_FullID_set_replies.
    apply String.eqb_eq in Ha. apply String.eqb_neq in Hb. rewrite Ha, Hb.
    rewrite Replies_Comments_set_replies, !set_replies_twice.
    apply set_replies_ext. unfold constant.
    rewrite map_app. cbn [map].
    now rewrite (Comment_addCommentToReplies_unmatched b a Hba).
  - rewrite !Comment_addCommentToReplies_unfold.
    rewrite !Comment_FullID_set_replies.
    apply String.eqb_neq in Ha. apply String.eqb_eq in Hb. rewrite Ha, Hb.
    rewrite Replies_Comments_set_replies, !set_replies_twice.
    apply set_replies_ext. unfold constant.
    rewrite map_app. cbn [map].
    now rewrite (Comment_addCommentToReplies_unmatched a b Hab).
  - rewrite !Comment_addCommentToReplies_unfold.
    rewrite !Comment_FullID_set_replies.
    apply String.eqb_neq in Ha. apply String.eqb_neq in Hb. rewrite Ha, Hb.
    rewrite !Replies_Comments_set_replies, !set_replies_twice.
    apply set_replies_ext. unfold constant. rewrite !map_map.
    apply map_ext_in. intros reply Hin.
    rewrite Forall_forall in IH. now apply IH.
Qed.

(** **** X5
    Two comments with different parents, neither of which has the other's
    parent among its own nodes, can be attached in either order: the
    outcome is the same tree, for a comment as the root and for an
    aggregate. *)
Theorem attach_comments_in_either_order
  (pc : PostAndComments) (post : Post) (root a b : Comment) :
  PostAndComments_Post pc = Some post ->
  Comment_ParentID a <> Comment_ParentID b ->
  ~ In (Comment_ParentID b) (Comment_fullIDs a) ->
  ~ In (Comment_ParentID a) (Comment_fullIDs b) ->
  Comment_addCommentToReplies (Comment_addCommentToReplies root a) b
  = Comment_addCommentToReplies (Comment_addCommentToReplies root b) a
  /\ exists pca pcb pcab,
       PostAndComments_addCommentToTree pc a = Returned pca
       /\ PostAndComments_addCommentToTree pc b = Returned pcb
       /\ PostAndComments_addCommentToTree pca b = Returned pcab
       /\ PostAndComments_addCommentToTree pcb a = Returned pcab.
Proof.
  intros Hpost Hdiff Hba Hab.
  split; [now apply Comment_addComment_comm |].
  unfold PostAndComments_addCommentToTree.
  destruct pc as [pcpost comments slot]. cbn in Hpost. subst pcpost.
  cbn [PostAndComments_Post].
  destruct (String.eqb_spec (Post_FullID post) (Comment_ParentID a))
    as [Ha | Ha];
    destruct (String.eqb_spec (Post_FullID post) (Comment_ParentID b))
      as [Hb | Hb]; [congruence | | |].
  - apply String.eqb_eq in Ha. apply String.eqb_neq in Hb.
    eexists. eexists. eexists.
    split; [reflexivity |]. split; [reflexivity |].
    cbn -[map Comment_addCommentToReplies]. rewrite Ha, Hb. unfold constant.
    rewrite map_app. cbn [map].
    rewrite (Comment_addCommentToReplies_unmatched b a Hba).
    split; reflexivity.
  - apply String.eqb_neq in Ha. apply String.eqb_eq in Hb.
    eexists. eexists. eexists.
    split; [reflexivity |]. split; [reflexivity |].
    cbn -[map Comment_addCommentToReplies]. rewrite Ha, Hb. unfold constant.
    rewrite map_app. cbn [map].
    rewrite (Comment_addCommentToReplies_unmatched a b Hab).
    split; reflexivity.
  - apply String.eqb_neq in Ha. apply String.eqb_neq in Hb.
    eexists. eexists. eexists.
    split; [reflexivity |]. split; [reflexivity |].
    cbn -[map Comment_addCommentToReplies]. rewrite Ha, Hb. unfold constant.
    rewrite !map_map.
    rewrite (map_ext _ _ (fun reply => Comment_addComment_comm a b reply Hdiff Hba Hab)).
    split; reflexivity.
Qed.

Lemma set_replies_then_more (c : Comment) (f : list Comment -> list Comment)
  (slot : option More) :
  c <| Comment_Replies -> Replies_Comments ::= f |>
    <| Comment_Replies -> Replies_More := slot |>
  = c <| Comment_Replies -> Replies_More := slot |>
      <| Comment_Replies -> Replies_Comments ::= f |>.
Proof. destruct c as [? ? ? ? ? ? ? ? ? ? ? ? ? ? ? ? ? ? ? ? ? ? ? ? ? ? ? ? ? []]. reflexivity. Qed.

Lemma Replies_Comments_set_more (c : Comment) (slot : option More) :
  Replies_Comments
    (Comment_Replies (c <| Comment_Replies -> Replies_More := slot |>))
  = Replies_Comments (Comment_Replies c).
Proof. destruct c as [? ? ? ? ? ? ? ? ? ? ? ? ? ? ? ? ? ? ? ? ? ? ? ? ? ? ? ? ? []]. reflexivity. Qed.

Lemma Comment_addComment_addMore_comm (a : Comment) (more : More)
  (c : Comment) :
  ~ In (More_ParentID more) (Comment_fullIDs a) ->
  Comment_addMoreToReplies (Comment_addCommentToReplies c a) more
  = Comment_addCommentToReplies (Comment_addMoreToReplies c more) a.
Proof.
  intros Hma. induction c as [c IH] using Comment_tree_ind.
  rewrite (Comment_addCommentToReplies_unfold c a).
  rewrite (Comment_addMoreToReplies_unfold c more).
  destruct (String.eqb (Comment_FullID c) (Comment_ParentID a)) eqn:Ha;
    destruct (String.eqb (Comment_FullID c) (More_ParentID more)) eqn:Hm.
  - rewrite Comment_addMoreToReplies_unfold, Comment_addCommentToReplies_unfold.
    rewrite Comment_FullID_set_replies, Comment_FullID_set_more, Ha, Hm.
    apply set_replies_then_more.
  - rewrite Comment_addMoreToReplies_unfold, Comment_addCommentToReplies_unfold.
    rewrite !Comment_FullID_set_replies, Ha, Hm.
    rewrite Replies_Comments_set_replies, !set_replies_twice.
    apply set_replies_ext. unfold constant.
    rewrite map_app. cbn [map].
    now rewrite (Comment_addMoreToReplies_unmatched more a Hma).
  - rewrite Comment_addMoreToReplies_unfold, Comment_addCommentToReplies_unfold.
    rewrite Comment_FullID_set_replies, Comment_FullID_set_more, Ha, Hm.
    rewrite Replies_Comments_set_more. apply set_replies_then_more.
  - rewrite Comment_addMoreToReplies_unfold, Comment_addCommentToReplies_unfold.
    rewrite !Comment_FullID_set_replies, Ha, Hm.
    rewrite !Replies_Comments_set_replies, !set_replies_twice.
    apply set_replies_ext. unfold constant. rewrite !map_map.
    apply map_ext_in. intros reply Hin.
    rewrite Forall_forall in IH. now apply IH.
Qed.

(** **** X6
    A comment and a placeholder can be attached in either order, provided
    the placeholder's parent is not a node of the comment that is attached:
    the outcome is the same tree, for a comment as the root and for an
    aggregate. *)
Theorem attach_comment_and_placeholder_in_either_order
  (pc : PostAndComments) (post : Post) (root a : Comment) (more : More) :
  PostAndComments_Post pc = Some post ->
  ~ In (More_ParentID more) (Comment_fullIDs a) ->
  Comment_addMoreToReplies (Comment_addCommentToReplies root a) more
  = Comment_addCommentToReplies (Comment_addMoreToReplies root more) a
  /\ exists pca pcm pcam,
       PostAndComments_addCommentToTree pc a = Returned pca
       /\ PostAndComments_addMoreToTree pc more = Returned pcm
       /\ PostAndComments_addMoreToTree pca more = Returned pcam
       /\ PostAndComments_addCommentToTree pcm a = Returned pcam.
Proof.
  intros Hpost Hma.
  split; [now apply Comment_addComment_addMore_comm |].
  unfold PostAndComments_addCommentToTree, PostAndComments_addMoreToTree.
  destruct pc as [pcpost comments slot]. cbn in Hpost. subst pcpost.
  cbn [PostAndComments_Post].
  destruct (String.eqb (Post_FullID post) (Comment_ParentID a)) eqn:Ha;
    destruct (String.eqb (Post_FullID post) (More_ParentID more)) eqn:Hm;
    eexists; eexists; eexists;
    (split; [reflexivity |]); (split; [reflexivity |]);
    cbn -[map Comment_addCommentToReplies Comment_addMoreToReplies];
    rewrite ?Ha, ?Hm;
    cbn -[map Comment_addCommentToReplies Comment_addMoreToReplies];
    unfold constant;
    rewrite ?map_app, ?map_map; cbn [map];
    rewrite ?(Comment_addMoreToReplies_unmatched more a Hma);
    rewrite ?(map_ext _ _
                (fun reply =>
                   Comment_addComment_addMore_comm a more reply Hma));
    split; reflexivity.
Qed.

(** ** The aggregate decoder, further *)

(** **** X7
    [PostAndComments.UnmarshalJSON] panics exactly on the accepted inputs
    whose first listing holds no post, at the index expression
    [l[0].Posts[0]]; [null], the empty array and an array of listings
    without children are such inputs.  It never panics in another way. *)
Theorem PostAndComments_UnmarshalJSON_panics_iff_no_post
  (data : json) (pc : PostAndComments) :
  (PostAndComments_UnmarshalJSON data pc = Panicked IndexOutOfRange <->
     pairShape data = true
     /\ things_Posts (listing_things (listingAt 0 data)) = [])
  /\ PostAndComments_UnmarshalJSON data pc <> Panicked NilDereference
  /\ PostAndComments_UnmarshalJSON JNull pc = Panicked IndexOutOfRange
  /\ PostAndComments_UnmarshalJSON (JArray []) pc = Panicked IndexOutOfRange
  /\ PostAndComments_UnmarshalJSON
       (JArray [listingOf (JArray []); listingOf (JArray [])]) pc
     = Panicked IndexOutOfRange.
Proof.
  split; [| split; [| split; [| split]]]; try reflexivity.
  - rewrite PostAndComments_UnmarshalJSON_by_shape.
    destruct (pairShape data); [| split; [discriminate | intros []; discriminate]].
    destruct (things_Posts (listing_things (listingAt 0 data))); split;
      try discriminate; auto.
    intros [_ H]. discriminate H.
  - rewrite PostAndComments_UnmarshalJSON_by_shape.
    destruct (pairShape data); [| discriminate].
    destruct (things_Posts (listing_things (listingAt 0 data))); discriminate.
Qed.

(** **** X8
    An aggregate that was decoded without an error has a post: its [Post]
    pointer is not nil, so that [addCommentToTree] and [addMoreToTree] return
    for every comment and every placeholder. *)
Theorem decoded_aggregate_has_a_post
  (data : json) (pc pc' : PostAndComments) :
  PostAndComments_UnmarshalJSON data pc = Returned (pc', None) ->
  exists post,
    PostAndComments_Post pc' = Some post
    /\ In post (things_Posts (listing_things (listingAt 0 data)))
    /\ (forall comment,
          exists pc'',
            PostAndComments_addCommentToTree pc' comment = Returned pc'')
    /\ (forall more,
          exists pc'',
            PostAndComments_addMoreToTree pc' more = Returned pc'').
Proof.
  rewrite PostAndComments_UnmarshalJSON_by_shape.
  destruct (pairShape data); [| discriminate].
  destruct (things_Posts (listing_things (listingAt 0 data))) as [| post posts];
    [discriminate |].
  intros [= <-]. exists post.
  split; [reflexivity |]. split; [now left |]. split.
  - intros comment. unfold PostAndComments_addCommentToTree.
    cbn [PostAndComments_Post].
    destruct (String.eqb (Post_FullID post) (Comment_ParentID comment));
      eexists; reflexivity.
  - intros more. unfold PostAndComments_addMoreToTree.
    cbn [PostAndComments_Post]. eexists; reflexivity.
Qed.

(** ** The classifier and the reply container, further *)

(** **** X9
    [things.UnmarshalJSON] clears its receiver first: what it returns does
    not depend on what the receiver held, so decoding again into the same
    [things] does not pile records up.  It fails exactly when the input is
    neither [null] nor an array of things (objects or [null], with a kind that
    is a string or [null]), and then, unlike the listing decoder, leaves the
    receiver cleared and not as it was. *)
Theorem things_UnmarshalJSON_clears_the_receiver (b : json) (t : things) :
  things_UnmarshalJSON b t = things_UnmarshalJSON b new_things
  /\ things_UnmarshalJSON b t =
       (if childrenShape b
        then (fst (things_UnmarshalJSON b new_things), None)
        else (new_things, Some DecodeError))
  /\ things_UnmarshalJSON JNull t = (new_things, None)
  /\ things_UnmarshalJSON (JArray []) t = (new_things, None).
Proof.
  assert (Hsame : things_UnmarshalJSON b t = things_UnmarshalJSON b new_things).
  { unfold things_UnmarshalJSON, things_UnmarshalJSON_with. now destruct t. }
  split; [exact Hsame |]. split; [| split; now destruct t].
  rewrite Hsame.
  pose proof (things_UnmarshalJSON_error Comment_store b new_things) as Herr.
  fold things_UnmarshalJSON in Herr.
  unfold things_UnmarshalJSON, things_UnmarshalJSON_with in *.
  destruct (json_Unmarshal thingSlice_store (Some b) []) as [ths | []];
    cbn [snd fst] in *; destruct (childrenShape b); try discriminate;
    reflexivity.
Qed.

(** **** X10
    [Replies.UnmarshalJSON] fails exactly when the value is neither the
    empty string nor of the shape of a listing, and then leaves the receiver
    as it was; a string that is not empty is such a value.  On [null] it
    succeeds, empties the comments and keeps the placeholder the receiver
    held. *)
Theorem Replies_UnmarshalJSON_fails_outside_shape (data : json) (r : Replies) :
  Replies_UnmarshalJSON data r =
    match data with
    | JString "" => (r, None)
    | _ =>
        if listingShape data
        then (fst (Replies_UnmarshalJSON data r), None)
        else (r, Some DecodeError)
    end
  /\ (forall c rest,
        Replies_UnmarshalJSON (JString (String c rest)) r
        = (r, Some DecodeError))
  /\ Replies_UnmarshalJSON JNull r = (r <| Replies_Comments := [] |>, None).
Proof.
  split; [| split; [intros c rest; reflexivity | reflexivity]].
  assert (Hgen :
            match
              json_Unmarshal (listing_store_with Comment_store) (Some data)
                new_listing
            with
            | Ok root =>
                (let r0 := r <| Replies_Comments :=
                                 things_Comments (listing_things root) |> in
                 match things_Mores (listing_things root) with
                 | m :: _ => r0 <| Replies_More := Some m |>
                 | [] => r0
                 end, @None error)
            | Err err => (r, Some err)
            end
            = if listingShape data
              then (fst
                      match
                        json_Unmarshal (listing_store_with Comment_store)
                          (Some data) new_listing
                      with
                      | Ok root =>
                          (let r0 := r <| Replies_Comments :=
                                           things_Comments
                                             (listing_things root) |> in
                           match things_Mores (listing_things root) with
                           | m :: _ => r0 <| Replies_More := Some m |>
                           | [] => r0
                           end, @None error)
                      | Err err => (r, Some err)
                      end, None)
              else (r, Some DecodeError)).
  { unfold json_Unmarshal, listing_store_with, viaUnmarshaler.
    rewrite (listing_UnmarshalJSON_by_shape Comment_store data new_listing).
    destruct (listingShape data); reflexivity. }
  unfold Replies_UnmarshalJSON, Replies_UnmarshalJSON_with.
  destruct data as [| | | s | |]; try exact Hgen.
  destruct s; [reflexivity | exact Hgen].
Qed.

(** The listing decoder on the wire form of a listing. *)
Lemma listing_UnmarshalJSON_of_envelope (decodeComment : store Comment)
  (kind children after before : json) (l : listing) :
  listing_UnmarshalJSON_with decodeComment
    (listingEnvelope kind children after before) l =
    if stringOrNull after && childrenShape children && stringOrNull before
    then
      ({| listing_things :=
            fst (things_UnmarshalJSON_with decodeComment children new_things);
          listing_after := anchorOf after;
          listing_before := anchorOf before |}, None)
    else (l, Some DecodeError).
Proof.
  pose proof (things_UnmarshalJSON_error decodeComment children new_things)
    as Herr.
  unfold listing_UnmarshalJSON_with, listingEnvelope.
  destruct after, before;
    lazy -[things_UnmarshalJSON_with new_things childrenShape];
    try (now destruct (childrenShape children));
    remember (things_UnmarshalJSON_with decodeComment children new_things)
      as outcome eqn:Houtcome;
    clear Houtcome; destruct outcome as [t [[] |]]; cbn [snd fst] in Herr;
    destruct (childrenShape children); try discriminate;
    reflexivity || now destruct l.
Qed.

(** **** X11
    On the wire form of a listing, [{kind, data: {after, children,
    before}}], the listing decoder succeeds exactly when the anchors are
    strings or [null] and the children are a sequence of things.  Then
    [After] and [Before] return the anchors, [null] read as the empty string,
    and the things are what the classifier makes of the children; the kind is
    not looked at. *)
Theorem listing_UnmarshalJSON_of_wire_form
  (kind children after before : json) (l : listing) :
  listing_UnmarshalJSON (listingEnvelope kind children after before) l =
    (if stringOrNull after && childrenShape children && stringOrNull before
     then
       ({| listing_things := fst (things_UnmarshalJSON children new_things);
           listing_after := anchorOf after;
           listing_before := anchorOf before |}, None)
     else (l, Some DecodeError))
  /\ (stringOrNull after && childrenShape children && stringOrNull before
      = true ->
      let l' := fst (listing_UnmarshalJSON
                       (listingEnvelope kind children after before) l) in
      listing_After l' = anchorOf after
      /\ listing_Before l' = anchorOf before).
Proof.
  pose proof (listing_UnmarshalJSON_of_envelope Comment_store kind children
                after before l) as Hwire.
  fold listing_UnmarshalJSON things_UnmarshalJSON in Hwire.
  split; [exact Hwire |].
  intros Hshape. rewrite Hwire, Hshape. now split.
Qed.

(** **** X12
    Decoding the wire form of a listing into a reply container gives it the
    comments among the children, in their order, and the first placeholder
    among them; placeholders after the first are dropped, and when there is
    none the container keeps the placeholder it held before. *)
Theorem Replies_UnmarshalJSON_of_things
  (kind children after before : json) (ths : list thing) (r : Replies) :
  json_Unmarshal thingSlice_store (Some children) [] = Ok ths ->
  stringOrNull after = true ->
  stringOrNull before = true ->
  Replies_UnmarshalJSON (listingEnvelope kind children after before) r =
    ({| Replies_Comments := bucket kindComment Comment_store new_Comment ths;
        Replies_More :=
          match bucket kindMore More_store new_More ths with
          | m :: _ => Some m
          | [] => Replies_More r
          end |}, None).
Proof.
  intros Hths Hafter Hbefore.
  assert (Hshape : childrenShape children = true).
  { rewrite <- (isOk_thingSlice_store children []).
    unfold json_Unmarshal in Hths. now rewrite Hths. }
  unfold Replies_UnmarshalJSON, Replies_UnmarshalJSON_with.
  unfold listingEnvelope at 1.
  fold (listingEnvelope kind children after before).
  unfold json_Unmarshal at 1. unfold listing_store_with, viaUnmarshaler.
  rewrite listing_UnmarshalJSON_of_envelope, Hafter, Hbefore, Hshape.
  cbn [andb listing_things fst].
  unfold things_UnmarshalJSON_with. rewrite Hths, things_loop_buckets.
  cbn [fst things_Comments things_Mores things_init app].
  destruct (bucket kindMore More_store new_More ths); now destruct r.
Qed.

(** A struct takes an object as it takes the members that name its fields. *)
Lemma membersStore_named_only {T : Type} (tbl : fields T)
  (members : list (string * json)) (dst : T) :
  membersStore tbl members dst
  = membersStore tbl
      (filter
         (fun m =>
            match fieldNamed tbl (fst m) with
            | Some _ => true
            | None => false
            end) members) dst.
Proof.
  revert dst. induction members as [| [name v] rest IH]; intros dst;
    [reflexivity |].
  cbn [membersStore filter fst].
  destruct (fieldNamed tbl name) as [st |] eqn:Hname.
  - cbn [membersStore]. rewrite Hname.
    destruct (st v dst); cbn [bind]; [apply IH | reflexivity].
  - apply IH.
Qed.

(** **** X13
    The listing decoder looks at the members named [data] (in any case) and
    at nothing else: the kind of the envelope is never checked, and every
    other member is skipped. *)
Theorem listing_UnmarshalJSON_reads_data_only
  (members : list (string * json)) (l : listing) :
  listing_UnmarshalJSON (JObject members) l
  = listing_UnmarshalJSON (JObject (filter namedData members)) l.
Proof.
  unfold listing_UnmarshalJSON, listing_UnmarshalJSON_with, json_Unmarshal.
  cbn [listingRoot_store structStore].
  rewrite membersStore_named_only.
  replace (filter _ members) with (filter namedData members); [reflexivity |].
  apply filter_ext. intros [name v]. unfold namedData.
  cbn [listingRoot_fields fieldNamed fst]. rewrite String.eqb_sym.
  now destruct (String.eqb "data" (foldName name)).
Qed.

(** ** Integers, written and read again *)






(** ** A comment, encoded and decoded again *)

(** A struct refuses an object one of whose members its field refuses. *)
Lemma membersStore_fails {T : Type} (tbl : fields T)
  (members : list (string * json)) (name : string) (v : json) (st : store T) :
  In (name, v) members ->
  fieldNamed tbl name = Some st ->
  (forall d, st v d = Err DecodeError) ->
  forall dst, membersStore tbl members dst = Err DecodeError.
Proof.
  intros Hin Hname Hfails.
  induction members as [| [n w] rest IH]; intros dst; [contradiction |].
  cbn [membersStore]. destruct Hin as [[= -> ->] | Hin].
  - now rewrite Hname, Hfails.
  - destruct (fieldNamed tbl n) as [st' |]; [| now apply IH].
    destruct (st' w dst) as [dst' | []]; cbn [bind]; [now apply IH | reflexivity].
Qed.

(** **** X14
    A comment that has replies is not decoded back from its own encoding:
    [Replies.MarshalJSON] writes the replies as an array, which
    [Replies.UnmarshalJSON] refuses, so [json.Unmarshal] into a [Comment]
    fails on what [json.Marshal] wrote for it, and the classifier drops a
    thing of kind [t1] with that data. *)
Theorem Comment_with_replies_is_not_decoded_back
  (c : Comment) (j : json) (dst : Comment) :
  Replies_Comments (Comment_Replies c) <> [] ->
  json_Marshal_Comment c = Ok j ->
  json_Unmarshal Comment_store (Some j) dst = Err DecodeError
  /\ bucket kindComment Comment_store new_Comment
       [{| thing_Kind := kindComment; thing_Data := Some j |}] = [].
Proof.
  intros Hsome Hj.
  assert (Hfails : forall d, Comment_store j d = Err DecodeError).
  { intros d. rewrite Comment_store_unfold.
    rewrite json_Marshal_Comment_unfold in Hj.
    destruct (omitemptyTimestamp "created_utc" (Comment_Created c))
      as [created |]; cbn [bind] in Hj; [| discriminate].
    destruct (omitemptyTimestamp "edited" (Comment_Edited c))
      as [edited |]; cbn [bind] in Hj; [| discriminate].
    unfold Replies_MarshalJSON in Hj.
    destruct (Replies_Comments (Comment_Replies c)) as [| x rest];
      [contradiction |].
    cbn [length Nat.eqb] in Hj.
    destruct (json_Marshal_Comments (x :: rest)) as [js |]; cbn [bind] in Hj;
      [| discriminate].
    injection Hj as <-. unfold Comment_object.
    cbn [Comment_store_with structStore].
    apply membersStore_fails with
      (name := "replies") (v := JArray js)
      (st := field Comment_Replies
               (viaUnmarshaler (Replies_UnmarshalJSON_with Comment_store))).
    - repeat (apply in_or_app; right). cbn [In]. tauto.
    - reflexivity.
    - intros d'. reflexivity. }
  split.
  - apply Hfails.
  - unfold bucket. cbn [flat_map thing_Kind thing_Data json_Unmarshal].
    rewrite String.eqb_refl, Hfails. reflexivity.
Qed.


Section Members.
Variables (T : Type) (tbl : fields T) (name : string).






End Members.




(** ** Whether there is more, after attaching *)

(** **** X16
    After a placeholder was attached, [HasMore] of the root answers for that
    placeholder when the root is its parent (true exactly when the list of
    children of the placeholder is not empty), and answers as before when the
    placeholder belongs further down or nowhere. *)
Theorem HasMore_after_attaching
  (pc pc' : PostAndComments) (post : Post) (root : Comment) (more : More) :
  PostAndComments_Post pc = Some post ->
  PostAndComments_addMoreToTree pc more = Returned pc' ->
  PostAndComments_HasMore pc' =
    (if String.eqb (Post_FullID post) (More_ParentID more)
     then (0 <? length (More_Children more))%nat
     else PostAndComments_HasMore pc)
  /\ Comment_HasMore (Comment_addMoreToReplies root more) =
       (if String.eqb (Comment_FullID root) (More_ParentID more)
        then (0 <? length (More_Children more))%nat
        else Comment_HasMore root).
Proof.
  intros Hpost. unfold PostAndComments_addMoreToTree. rewrite Hpost.
  intros [= <-]. split.
  - destruct pc as [pcpost comments slot].
    destruct (String.eqb (Post_FullID post) (More_ParentID more)); reflexivity.
  - rewrite Comment_addMoreToReplies_unfold.
    destruct (String.eqb (Comment_FullID root) (More_ParentID more)).
    + unfold Comment_HasMore. now rewrite Replies_More_set_more.
    + destruct root as [? ? ? ? ? ? ? ? ? ? ? ? ? ? ? ? ? ? ? ? ? ? ? ? ? ? ? ? ?
                          []]. reflexivity.
Qed.
End FurtherProperties.

(** * The properties on the sample values *)

#[local] Existing Instance standIn.

Lemma attach_parent_then_child_witness :
  PostAndComments_Post samplePostAndComments = Some samplePost
  /\ Post_FullID samplePost = "ROOT"
  /\ PostAndComments_Comments samplePostAndComments = []
  /\ Comment_FullID sampleRoot = "ROOT"
  /\ Replies_Comments (Comment_Replies sampleRoot) = []
  /\ Comment_FullID sampleParent = "A"
  /\ Comment_ParentID sampleParent = "ROOT"
  /\ Replies_Comments (Comment_Replies sampleParent) = []
  /\ Comment_ParentID sampleChild = "A"
  /\ "A" <> "ROOT"
  /\ Comment_addCommentToReplies
       (Comment_addCommentToReplies sampleRoot sampleParent) sampleChild
     = sampleRoot
         <| Comment_Replies -> Replies_Comments :=
              [sampleParent
                 <| Comment_Replies -> Replies_Comments := [sampleChild] |>] |>.
Proof.
  assert (Hdiff : "A" <> "ROOT") by discriminate.
  repeat (split; [reflexivity || exact Hdiff |]).
  exact
    (proj2 (proj2
       (@attach_parent_then_child standIn samplePostAndComments samplePost
          sampleRoot sampleParent sampleChild "ROOT" "A"
          eq_refl eq_refl eq_refl eq_refl eq_refl eq_refl eq_refl eq_refl
          eq_refl Hdiff))).
Defined.

Lemma attach_comment_without_parent_witness :
  PostAndComments_Post samplePostAndComments = Some samplePost
  /\ ~ In (Comment_ParentID sampleChild)
         (PostAndComments_fullIDs samplePostAndComments)
  /\ ~ In (Comment_ParentID sampleChild) (Comment_fullIDs sampleRoot)
  /\ PostAndComments_addCommentToTree samplePostAndComments sampleChild
     = Returned samplePostAndComments
  /\ Comment_addCommentToReplies sampleRoot sampleChild = sampleRoot.
Proof.
  assert (Hpc : ~ In (Comment_ParentID sampleChild)
                  (PostAndComments_fullIDs samplePostAndComments)).
  { intros [H | []]. discriminate H. }
  assert (Hroot : ~ In (Comment_ParentID sampleChild)
                    (Comment_fullIDs sampleRoot)).
  { intros [H | []]. discriminate H. }
  split; [reflexivity |]. split; [exact Hpc |]. split; [exact Hroot |].
  exact
    (@attach_comment_without_parent standIn samplePostAndComments samplePost
       sampleRoot sampleChild eq_refl Hpc Hroot).
Defined.

Lemma attach_placeholder_overwrites_witness :
  PostAndComments_Post samplePostAndComments = Some samplePost
  /\ More_ParentID sampleMore1 = "ROOT"
  /\ More_ParentID sampleMore2 = "ROOT"
  /\ In "ROOT" (PostAndComments_fullIDs samplePostAndComments)
  /\ In "ROOT" (Comment_fullIDs sampleRoot)
  /\ Comment_slot "ROOT"
       (Comment_addMoreToReplies
          (Comment_addMoreToReplies sampleRoot sampleMore1) sampleMore2)
     = Some (Some sampleMore2).
Proof.
  assert (Hpc : In "ROOT" (PostAndComments_fullIDs samplePostAndComments))
    by (left; reflexivity).
  assert (Hroot : In "ROOT" (Comment_fullIDs sampleRoot))
    by (left; reflexivity).
  repeat (split; [reflexivity || assumption |]).
  exact
    (proj2 (proj2
       (@attach_placeholder_overwrites standIn samplePostAndComments
          samplePost sampleRoot sampleMore1 sampleMore2 "ROOT"
          eq_refl eq_refl eq_refl Hpc Hroot))).
Defined.

Lemma things_UnmarshalJSON_classifies_witness :
  json_Unmarshal thingSlice_store (Some sampleChildren) [] = Ok sampleThings
  /\ things_UnmarshalJSON sampleChildren new_things
     = ({| things_Comments := [sampleParent];
           things_Mores := [];
           things_Users := [];
           things_Posts := [];
           things_Subreddits := [];
           things_ModActions := [] |}, None).
Proof.
  split; [reflexivity |].
  exact
    (proj1
       (@things_UnmarshalJSON_classifies standIn sampleChildren sampleThings
          new_things eq_refl)).
Defined.

Lemma Replies_encoding_is_not_decoded_back_witness :
  Replies_Comments sampleReplies <> []
  /\ Replies_MarshalJSON (Some sampleReplies) = Ok sampleRepliesJSON
  /\ things_UnmarshalJSON sampleRepliesJSON new_things = (new_things, None).
Proof.
  assert (Hsome : Replies_Comments sampleReplies <> []) by discriminate.
  split; [exact Hsome |]. split; [reflexivity |].
  exact
    (proj1 (proj2
       (@Replies_encoding_is_not_decoded_back standIn sampleReplies
          sampleRepliesJSON new_things new_Replies Hsome eq_refl))).
Defined.

Lemma PostAndComments_UnmarshalJSON_errors_outside_shape_witness :
  pairShape samplePostOnly = true
  /\ things_Posts (listing_things (listingAt 0 samplePostOnly)) = [samplePost <| Post_ID := "" |>]
  /\ PostAndComments_UnmarshalJSON samplePostOnly new_PostAndComments
     = Returned
         ({| PostAndComments_Post := Some (samplePost <| Post_ID := "" |>);
             PostAndComments_Comments := [];
             PostAndComments_More := None |}, None)
  /\ pairShape (JObject []) = false
  /\ PostAndComments_UnmarshalJSON (JObject []) samplePostAndComments
     = Returned (samplePostAndComments, Some DecodeError).
Proof.
  split; [reflexivity |]. split; [reflexivity |]. split.
  - exact
      (proj2 (proj2
         (@PostAndComments_UnmarshalJSON_errors_outside_shape standIn
            samplePostOnly new_PostAndComments))
         (samplePost <| Post_ID := "" |>) [] eq_refl eq_refl).
  - split; [reflexivity |].
    exact
      (proj1
         (@PostAndComments_UnmarshalJSON_errors_outside_shape standIn
            (JObject []) samplePostAndComments) eq_refl).
Defined.

Lemma listing_UnmarshalJSON_fails_outside_shape_witness :
  forallb (fun m => negb (String.eqb (foldName (fst m)) "data"))
    [("kind", JString kindListing)] = true
  /\ listing_UnmarshalJSON (collaborators := standIn)
       (JObject [("kind", JString kindListing)]) new_listing
     = (new_listing, None).
Proof.
  split; [reflexivity |].
  exact
    (proj1 (proj2
       (@listing_UnmarshalJSON_fails_outside_shape standIn
          (JObject [("kind", JString kindListing)]) new_listing))
       [("kind", JString kindListing)] eq_refl).
Defined.

(** Fed in the wrong order, the child is dropped and does not come back when
    its parent arrives. *)
Example child_before_parent_is_dropped :
  Comment_addCommentToReplies
    (Comment_addCommentToReplies sampleRoot sampleChild) sampleParent
  = sampleRoot <| Comment_Replies -> Replies_Comments := [sampleParent] |>.
Proof. reflexivity. Qed.

(** An array of one listing is decoded without an error, and an array of two
    listings of which the first holds no post makes the decoder panic:
    neither returns a decode error. *)
Lemma PostAndComments_UnmarshalJSON_one_listing_and_no_post :
  PostAndComments_UnmarshalJSON samplePostOnly new_PostAndComments
  = Returned
      ({| PostAndComments_Post := Some (samplePost <| Post_ID := "" |>);
          PostAndComments_Comments := [];
          PostAndComments_More := None |}, None)
  /\ PostAndComments_UnmarshalJSON sampleNoPost new_PostAndComments
     = Panicked IndexOutOfRange.
Proof. split; vm_compute; reflexivity. Qed.

(** A container with one comment and a placeholder encodes to an array that
    decodes, as the children of a listing, to no comment at all. *)
Lemma Replies_round_trip_loses_the_comments :
  Replies_MarshalJSON (Some sampleReplies) = Ok sampleRepliesJSON
  /\ length (Replies_Comments sampleReplies) = 1
  /\ things_Comments (fst (things_UnmarshalJSON sampleRepliesJSON new_things))
     = []
  /\ Replies_UnmarshalJSON (listingOf sampleRepliesJSON) new_Replies
     = (new_Replies, None).
Proof. repeat split; vm_compute; reflexivity. Qed.

(** An object without [data] is decoded without an error, and a listing
    whose only child has a number for its kind is refused. *)
Lemma listing_UnmarshalJSON_missing_data_and_bad_child :
  listing_UnmarshalJSON (JObject []) new_listing = (new_listing, None)
  /\ listing_UnmarshalJSON sampleBadChild new_listing
     = (new_listing, Some DecodeError).
Proof. split; vm_compute; reflexivity. Qed.

(** * The further properties on the sample values *)

Lemma attach_placeholder_without_parent_witness :
  PostAndComments_Post sampleAggregate = Some samplePost
  /\ ~ In (More_ParentID sampleMoreElsewhere)
         (PostAndComments_fullIDs sampleAggregate)
  /\ ~ In (More_ParentID sampleMoreElsewhere) (Comment_fullIDs sampleTree)
  /\ PostAndComments_addMoreToTree sampleAggregate sampleMoreElsewhere
     = Returned sampleAggregate
  /\ Comment_addMoreToReplies sampleTree sampleMoreElsewhere = sampleTree.
Proof.
  assert (Hpc : ~ In (More_ParentID sampleMoreElsewhere)
                  (PostAndComments_fullIDs sampleAggregate)).
  { intros [H | [H | []]]; discriminate H. }
  assert (Hroot : ~ In (More_ParentID sampleMoreElsewhere)
                    (Comment_fullIDs sampleTree)).
  { intros [H | [H | []]]; discriminate H. }
  split; [reflexivity |]. split; [exact Hpc |]. split; [exact Hroot |].
  exact
    (@attach_placeholder_without_parent standIn sampleAggregate samplePost
       sampleTree sampleMoreElsewhere eq_refl Hpc Hroot).
Defined.

Lemma attach_comment_under_its_parent_witness :
  PostAndComments_Post sampleAggregate = Some samplePost
  /\ Comment_find (Comment_ParentID sampleChild) sampleTree = Some sampleParent
  /\ Comment_find (Comment_ParentID sampleChild)
       (Comment_addCommentToReplies sampleTree sampleChild)
     = Some (withReply sampleChild sampleParent).
Proof.
  split; [reflexivity |]. split; [reflexivity |].
  exact
    (proj1
       (@attach_comment_under_its_parent standIn sampleAggregate samplePost
          sampleTree sampleChild sampleParent eq_refl eq_refl)).
Defined.

Lemma attach_comment_once_witness :
  NoDup (Comment_fullIDs sampleTree)
  /\ In (Comment_ParentID sampleChild) (Comment_fullIDs sampleTree)
  /\ Permutation
       (Comment_fullIDs (Comment_addCommentToReplies sampleTree sampleChild))
       (Comment_fullIDs sampleTree ++ Comment_fullIDs sampleChild).
Proof.
  assert (Hnd : NoDup (Comment_fullIDs sampleTree)).
  { apply NoDup_cons; [intros [H | []]; discriminate H |].
    apply NoDup_cons; [intros [] | apply NoDup_nil]. }
  assert (Hin : In (Comment_ParentID sampleChild) (Comment_fullIDs sampleTree))
    by (right; left; reflexivity).
  split; [exact Hnd |]. split; [exact Hin |].
  exact (proj1 (@attach_comment_once standIn sampleTree sampleChild Hnd Hin)).
Defined.

Lemma attach_comments_in_either_order_witness :
  PostAndComments_Post sampleAggregate = Some samplePost
  /\ Comment_ParentID sampleOther <> Comment_ParentID sampleChild
  /\ ~ In (Comment_ParentID sampleChild) (Comment_fullIDs sampleOther)
  /\ ~ In (Comment_ParentID sampleOther) (Comment_fullIDs sampleChild)
  /\ Comment_addCommentToReplies
       (Comment_addCommentToReplies sampleTree sampleOther) sampleChild
     = Comment_addCommentToReplies
         (Comment_addCommentToReplies sampleTree sampleChild) sampleOther.
Proof.
  assert (Hdiff : Comment_ParentID sampleOther <> Comment_ParentID sampleChild)
    by discriminate.
  assert (Hba : ~ In (Comment_ParentID sampleChild)
                  (Comment_fullIDs sampleOther)).
  { intros [H | []]. discriminate H. }
  assert (Hab : ~ In (Comment_ParentID sampleOther)
                  (Comment_fullIDs sampleChild)).
  { intros [H | []]. discriminate H. }
  split; [reflexivity |]. split; [exact Hdiff |].
  split; [exact Hba |]. split; [exact Hab |].
  exact
    (proj1
       (@attach_comments_in_either_order standIn sampleAggregate samplePost
          sampleTree sampleOther sampleChild eq_refl Hdiff Hba Hab)).
Defined.

Lemma attach_comment_and_placeholder_in_either_order_witness :
  PostAndComments_Post sampleAggregate = Some samplePost
  /\ ~ In (More_ParentID sampleMore1) (Comment_fullIDs sampleChild)
  /\ Comment_addMoreToReplies
       (Comment_addCommentToReplies sampleTree sampleChild) sampleMore1
     = Comment_addCommentToReplies
         (Comment_addMoreToReplies sampleTree sampleMore1) sampleChild.
Proof.
  assert (Hma : ~ In (More_ParentID sampleMore1) (Comment_fullIDs sampleChild)).
  { intros [H | []]. discriminate H. }
  split; [reflexivity |]. split; [exact Hma |].
  exact
    (proj1
       (@attach_comment_and_placeholder_in_either_order standIn
          sampleAggregate samplePost sampleTree sampleChild sampleMore1
          eq_refl Hma)).
Defined.

Lemma decoded_aggregate_has_a_post_witness :
  PostAndComments_UnmarshalJSON samplePostOnly new_PostAndComments
  = Returned
      ({| PostAndComments_Post := Some (samplePost <| Post_ID := "" |>);
          PostAndComments_Comments := [];
          PostAndComments_More := None |}, None)
  /\ exists post,
       PostAndComments_Post
         {| PostAndComments_Post := Some (samplePost <| Post_ID := "" |>);
            PostAndComments_Comments := [];
            PostAndComments_More := None |} = Some post
       /\ In post (things_Posts (listing_things (listingAt 0 samplePostOnly)))
       /\ (forall comment,
             exists pc'',
               PostAndComments_addCommentToTree
                 {| PostAndComments_Post :=
                      Some (samplePost <| Post_ID := "" |>);
                    PostAndComments_Comments := [];
                    PostAndComments_More := None |} comment = Returned pc'')
       /\ (forall more,
             exists pc'',
               PostAndComments_addMoreToTree
                 {| PostAndComments_Post :=
                      Some (samplePost <| Post_ID := "" |>);
                    PostAndComments_Comments := [];
                    PostAndComments_More := None |} more = Returned pc'').
Proof.
  split; [reflexivity |].
  exact
    (@decoded_aggregate_has_a_post standIn samplePostOnly new_PostAndComments
       {| PostAndComments_Post := Some (samplePost <| Post_ID := "" |>);
          PostAndComments_Comments := [];
          PostAndComments_More := None |} eq_refl).
Defined.

Lemma Replies_UnmarshalJSON_of_things_witness :
  json_Unmarshal thingSlice_store (Some sampleReplyChildren) []
  = Ok sampleReplyThings
  /\ stringOrNull JNull = true
  /\ Replies_UnmarshalJSON
       (listingEnvelope (JString kindListing) sampleReplyChildren JNull JNull)
       new_Replies
     = ({| Replies_Comments := [sampleChild];
           Replies_More := Some sampleMore1 |}, None).
Proof.
  split; [reflexivity |]. split; [reflexivity |].
  exact
    (@Replies_UnmarshalJSON_of_things standIn (JString kindListing)
       sampleReplyChildren JNull JNull sampleReplyThings new_Replies
       eq_refl eq_refl eq_refl).
Defined.

Lemma Comment_with_replies_is_not_decoded_back_witness :
  Replies_Comments (Comment_Replies sampleTree) <> []
  /\ json_Marshal_Comment sampleTree = Ok sampleTreeJSON
  /\ json_Unmarshal Comment_store (Some sampleTreeJSON) new_Comment
     = Err DecodeError.
Proof.
  assert (Hsome : Replies_Comments (Comment_Replies sampleTree) <> [])
    by discriminate.
  split; [exact Hsome |]. split; [reflexivity |].
  exact
    (proj1
       (@Comment_with_replies_is_not_decoded_back standIn sampleTree
          sampleTreeJSON new_Comment Hsome eq_refl)).
Defined.


Lemma HasMore_after_attaching_witness :
  PostAndComments_Post sampleAggregate = Some samplePost
  /\ PostAndComments_addMoreToTree sampleAggregate sampleMore1
     = Returned (sampleAggregate <| PostAndComments_More := Some sampleMore1 |>)
  /\ PostAndComments_HasMore
       (sampleAggregate <| PostAndComments_More := Some sampleMore1 |>)
     = true.
Proof.
  split; [reflexivity |]. split; [reflexivity |].
  exact
    (proj1
       (@HasMore_after_attaching standIn sampleAggregate
          (sampleAggregate <| PostAndComments_More := Some sampleMore1 |>)
          samplePost sampleTree sampleMore1 eq_refl eq_refl)).
Defined.
